(** * CDSHeapVerifier: a shallow embedding of src/hotspot/share/cds/cdsHeapVerifier.cpp

    The verifier collects the current values of the static object fields of
    every loaded class ([do_klass]), then walks the cache of archived objects
    ([do_entry]) and reports every archived object that is also the value of
    such a static field, with a trace back to a root of the archive
    ([trace_to_root]).

    Pointers (oops and Klass pointers) are addresses in [Z], [NULL] is 0.
    The C++ [int] counters are 32-bit integers in [Z] with their wrap-around
    written out.  The two hash tables are modelled as the code uses them:
    the table of static fields as a [gmap] keyed by the oop, the cache of
    archived objects as the list of its entries in iteration order. *)

From Stdlib Require Import ZArith List String Bool Lia.
From stdpp Require Import gmap strings list fin_maps.

Local Open Scope string_scope.
Local Open Scope list_scope.

(** ** Host data model *)

Abbreviation oop := Z.
Abbreviation KlassPtr := Z.

Definition NULL : Z := 0%Z.

(** [BasicType] of a field, as in globalDefinitions.hpp. *)
Inductive BasicType : Set :=
| T_BOOLEAN | T_CHAR | T_FLOAT | T_DOUBLE | T_BYTE | T_SHORT | T_INT | T_LONG
| T_OBJECT | T_ARRAY.

Definition BasicType_eqb (a b : BasicType) : bool :=
  match a, b with
  | T_BOOLEAN, T_BOOLEAN | T_CHAR, T_CHAR | T_FLOAT, T_FLOAT
  | T_DOUBLE, T_DOUBLE | T_BYTE, T_BYTE | T_SHORT, T_SHORT
  | T_INT, T_INT | T_LONG, T_LONG | T_OBJECT, T_OBJECT | T_ARRAY, T_ARRAY => true
  | _, _ => false
  end.

(** What the code reads from a [fieldDescriptor] / [JavaFieldStream] position. *)
Record fieldDescriptor : Type := {
  fd_name : string;               (* fd.name() *)
  fd_is_static : bool;            (* fs.access_flags().is_static() *)
  fd_field_type : BasicType;      (* fd.field_type() *)
  fd_offset : Z;                  (* fd.offset() *)
  fd_is_final : bool;             (* fd.is_final() *)
  fd_has_initial_value : bool     (* fd.has_initial_value() *)
}.

(** What the code reads from a [Klass]. *)
Record Klass : Type := {
  k_name : string;                    (* name(), internal_name() *)
  k_is_instance_klass : bool;         (* is_instance_klass() *)
  k_is_objArray_klass : bool;         (* is_objArray_klass() *)
  k_fields : list fieldDescriptor;    (* the fields JavaFieldStream yields, in order *)
  k_java_mirror : oop;                (* java_mirror() *)
  k_is_subgraph_root_class : bool;    (* HeapShared::is_subgraph_root_class(ik) *)
  k_has_archived_enum_objs : bool     (* has_archived_enum_objs() *)
}.

(** What the code reads from an object. *)
Record oopDesc : Type := {
  o_klass : KlassPtr;                 (* klass() *)
  o_obj_field : Z -> oop;             (* obj_field(offset) *)
  o_elems : list oop                  (* objArrayOop: obj_at(i) for 0 <= i < length() *)
}.

(** The host VM: the Java heap, the metaspace, and the two well-known classes. *)
Record Host : Type := {
  heap : oop -> oopDesc;
  metaspace : KlassPtr -> Klass;
  String_klass : KlassPtr;            (* vmClasses::String_klass() *)
  Class_klass : KlassPtr              (* vmClasses::Class_klass() *)
}.

(** HeapShared::CachedOopInfo: only the referrer is read here. *)
Record CachedOopInfo : Type := { _referrer : oop }.

(** CDSHeapVerifier::StaticFieldInfo. *)
Record StaticFieldInfo : Type := {
  _holder : KlassPtr;
  _name : string
}.

(** ** 32-bit counters *)

Definition max_jint : Z := 2147483647%Z.

Definition wrap_jint (z : Z) : Z := ((z + 2 ^ 31) mod 2 ^ 32 - 2 ^ 31)%Z.

(** [x++] on an [int]. *)
Definition jint_incr (x : Z) : Z := wrap_jint (x + 1).

(** ** The exclusion table *)

(** The entries added by ADD_EXCL in the constructor, in order: the class
    name followed by the names of its exempted fields. *)
Definition exclusion_table : list (string * list string) :=
  [ ("java/lang/ClassLoader", ["scl"]);
    ("java/lang/invoke/InvokerBytecodeGenerator",
       ["DONTINLINE_SIG"; "FORCEINLINE_SIG"; "HIDDEN_SIG"; "INJECTEDPROFILE_SIG";
        "LF_COMPILED_SIG"]);
    ("java/lang/Module",
       ["ALL_UNNAMED_MODULE"; "ALL_UNNAMED_MODULE_SET"; "EVERYONE_MODULE"; "EVERYONE_SET"]);
    ("java/lang/System", ["bootLayer"]);
    ("java/lang/VersionProps", ["VENDOR_URL_BUG"; "VENDOR_URL_VM_BUG"; "VENDOR_VERSION"]);
    ("java/net/URL$DefaultFactory", ["PREFIX"]);
    ("java/util/HashSet", ["PRESENT"]);
    ("jdk/internal/loader/BuiltinClassLoader", ["packageToModule"]);
    ("jdk/internal/loader/ClassLoaders", ["BOOT_LOADER"; "APP_LOADER"; "PLATFORM_LOADER"]);
    ("jdk/internal/loader/URLClassPath", ["JAVA_VERSION"]);
    ("jdk/internal/module/Builder", ["cachedVersion"]);
    ("jdk/internal/module/ModuleLoaderMap$Mapper",
       ["APP_CLASSLOADER"; "APP_LOADER_INDEX"; "PLATFORM_CLASSLOADER"; "PLATFORM_LOADER_INDEX"]);
    ("jdk/internal/module/ServicesCatalog", ["CLV"]);
    ("jdk/internal/reflect/Reflection", ["methodFilterMap"]);
    ("jdk/internal/util/StaticProperty", ["FILE_ENCODING"]) ].

(** Modelled from the spec: [find_exclusion] is declared in cdsHeapVerifier.hpp,
    which is not part of the sources.  The registry's lookup maps a class name
    to its exempted field names; [do_klass] tests its result against NULL, so
    a class without an entry yields [None]. *)
Fixpoint find_exclusion (exclusions : list (string * list string)) (class_name : string)
  : option (list string) :=
  match exclusions with
  | [] => None
  | (c, names) :: rest =>
      if String.eqb class_name c then Some names else find_exclusion rest class_name
  end.

Section Verifier.

Variable vm : Host.
Variable _exclusions : list (string * list string).

Definition klass (o : oop) : KlassPtr := o_klass (heap vm o).

Definition obj_field (o : oop) (offset : Z) : oop := o_obj_field (heap vm o) offset.

(** Modelled from the spec: [java_lang_String::is_instance] (javaClasses, not
    part of the sources) tells whether an object is a string instance. *)
Definition java_lang_String_is_instance (o : oop) : bool :=
  negb (o =? NULL)%Z && (klass o =? String_klass vm)%Z.

(** Modelled from the spec: [java_lang_Class::is_instance] (javaClasses, not
    part of the sources) tells whether an object is itself a class object
    (a mirror). *)
Definition java_lang_Class_is_instance (o : oop) : bool :=
  negb (o =? NULL)%Z && (klass o =? Class_klass vm)%Z.

(** ** do_klass: remember the static object fields *)

(** Where the body of the field loop of [do_klass] ends for one field. *)
Inductive field_outcome : Set :=
| NotStaticObject      (* not static, or field_type() != T_OBJECT *)
| SkipNull             (* static_obj_field == NULL *)
| SkipExcluded         (* excluded: continue *)
| SkipLiteralString    (* final String with an initial value: continue *)
| SkipMirror           (* final field holding a mirror: continue *)
| SkipEnum             (* klass->has_archived_enum_objs(): continue *)
| Indexed.             (* _table.put(static_obj_field, info) *)

#[global] Instance field_outcome_eq_dec : EqDecision field_outcome.
Proof. solve_decision. Defined.

(** The inner loop over the NULL-terminated array of excluded names. *)
Fixpoint excluded_in (names : list string) (fname : string) : bool :=
  match names with
  | [] => false
  | p :: rest => if String.eqb fname p then true else excluded_in rest fname
  end.

Definition scan_field (mirror : oop) (exclusions : option (list string))
    (fd : fieldDescriptor) : field_outcome :=
  if fd_is_static fd then
    if BasicType_eqb (fd_field_type fd) T_OBJECT then
      let static_obj_field := obj_field mirror (fd_offset fd) in
      if negb (static_obj_field =? NULL)%Z then
        let klass := klass static_obj_field in
        if match exclusions with
           | Some names => excluded_in names (fd_name fd)
           | None => false
           end
        then SkipExcluded
        else if fd_is_final fd && java_lang_String_is_instance static_obj_field
                && fd_has_initial_value fd
        then SkipLiteralString
        else if fd_is_final fd && java_lang_Class_is_instance static_obj_field
        then SkipMirror
        else if k_has_archived_enum_objs (metaspace vm klass)
        then SkipEnum
        else Indexed
      else SkipNull
    else NotStaticObject
  else NotStaticObject.

(** One iteration of the field loop on the table. *)
Definition do_field (ik : KlassPtr) (mirror : oop) (exclusions : option (list string))
    (table : gmap Z StaticFieldInfo) (fd : fieldDescriptor) : gmap Z StaticFieldInfo :=
  match scan_field mirror exclusions fd with
  | Indexed =>
      <[ obj_field mirror (fd_offset fd) := {| _holder := ik; _name := fd_name fd |} ]> table
  | _ => table
  end.

Definition do_klass (table : gmap Z StaticFieldInfo) (k : KlassPtr) : gmap Z StaticFieldInfo :=
  if k_is_instance_klass (metaspace vm k) then
    let ik := k in
    let mirror := k_java_mirror (metaspace vm ik) in
    let exclusions := find_exclusion _exclusions (k_name (metaspace vm ik)) in
    if k_is_subgraph_root_class (metaspace vm ik) then table
    else fold_left (do_field ik mirror exclusions) (k_fields (metaspace vm ik)) table
  else table.

(** ClassLoaderDataGraph::classes_do(this), on the classes in the order the
    host enumerates them. *)
Definition classes_do (classes : list KlassPtr) (table : gmap Z StaticFieldInfo)
  : gmap Z StaticFieldInfo :=
  fold_left do_klass classes table.

(** ** The cache of archived objects *)

(** Modelled from the spec: [HeapShared::archived_object_cache()->get(key)]
    (the host's resource hash table, not part of the sources) returns the
    entry recorded for an object, or NULL when it has none. *)
Fixpoint cache_get (cache : list (oop * CachedOopInfo)) (key : oop) : option CachedOopInfo :=
  match cache with
  | [] => None
  | (k, v) :: rest => if (k =? key)%Z then Some v else cache_get rest key
  end.

(** ** trace_to_root *)

(** What is printed after the type of a hop. *)
Inductive hop_field : Set :=
| NoField
| FieldAt (name : string) (offset : Z)     (* "::%s (offset = %d)" *)
| ElemAt (i : Z).                          (* " @[%d]" *)

Inductive trace_line : Set :=
| StringTableLine (level : Z)              (* "[%2d] (shared string table)" *)
| HopLine (level : Z) (obj : oop) (type_name : string) (f : hop_field).
                                           (* "[%2d] <address> <internal_name>..." *)

(** The loop over the fields of an instance parent. *)
Fixpoint find_field (orig_obj orig_field : oop) (fields : list fieldDescriptor) : hop_field :=
  match fields with
  | [] => NoField
  | fd :: rest =>
      if negb (fd_is_static fd) then
        if BasicType_eqb (fd_field_type fd) T_OBJECT || BasicType_eqb (fd_field_type fd) T_ARRAY then
          let obj_field := obj_field orig_obj (fd_offset fd) in
          if (obj_field =? orig_field)%Z then FieldAt (fd_name fd) (fd_offset fd)
          else find_field orig_obj orig_field rest
        else find_field orig_obj orig_field rest
      else find_field orig_obj orig_field rest
  end.

(** The loop over the elements of an object array parent, from index [i]. *)
Fixpoint find_elem (orig_field : oop) (elems : list oop) (i : Z) : hop_field :=
  match elems with
  | [] => NoField
  | e :: rest =>
      if (e =? orig_field)%Z then ElemAt i else find_elem orig_field rest (i + 1)%Z
  end.

(** The part of [trace_to_root] after the ascent: the field or index printed
    for [orig_obj].  [None] is the failure of the assertion
    [orig_obj->is_objArray()]. *)
Definition hop_field_of (orig_obj orig_field : oop) : option hop_field :=
  let k := klass orig_obj in
  if negb (orig_field =? NULL)%Z then
    if k_is_instance_klass (metaspace vm k) then
      Some (find_field orig_obj orig_field (k_fields (metaspace vm k)))
    else if k_is_objArray_klass (metaspace vm k) then
      Some (find_elem orig_field (o_elems (heap vm orig_obj)) 0%Z)
    else None
  else Some NoField.

(** [trace_to_root], with a bound on the depth of the recursion.  The result
    is the returned level and the lines printed, in order; [None] is a failed
    assertion or an exhausted bound. *)
Fixpoint trace_to_root (cache : list (oop * CachedOopInfo)) (fuel : nat)
    (orig_obj orig_field : oop) (p : CachedOopInfo) : option (Z * list trace_line) :=
  match fuel with
  | O => None
  | S fuel' =>
      let ascent :=
        if negb (_referrer p =? NULL)%Z then
          match cache_get cache (_referrer p) with
          | None => None                                      (* assert(ref != NULL) *)
          | Some ref =>
              match trace_to_root cache fuel' (_referrer p) orig_obj ref with
              | None => None
              | Some (l, lines) => Some (jint_incr l, lines)
              end
          end
        else if java_lang_String_is_instance orig_obj then
          Some (jint_incr 0%Z, [StringTableLine 0%Z])
        else Some (0%Z, [])
      in
      match ascent with
      | None => None
      | Some (level, lines) =>
          match hop_field_of orig_obj orig_field with
          | None => None
          | Some f =>
              Some (level,
                    lines ++ [HopLine level orig_obj (k_name (metaspace vm (klass orig_obj))) f])
          end
      end
  end.

(** ** The verifier *)

(** What reaches the warning log of (cds, heap). *)
Inductive log_event : Type :=
| Problem (info : StaticFieldInfo) (value : oop) (trace : list trace_line)
    (* "Archive heap points to a static field ...", "Field: %s::%s", "Value: ...",
       "--- trace begin ---", the trace, "--- trace end ---" *)
| Summary (archived_objs problems : Z).
    (* "Scanned %d objects. Found %d case(s) where ..." *)

Record CDSHeapVerifier : Type := {
  _archived_objs : Z;
  _problems : Z;
  _table : gmap Z StaticFieldInfo;
  warnings : list log_event
}.

(** The constructor: both counters at 0, then the pass over the loaded classes. *)
Definition CDSHeapVerifier_new (classes : list KlassPtr) : CDSHeapVerifier :=
  {| _archived_objs := 0%Z; _problems := 0%Z;
     _table := classes_do classes ∅;
     warnings := [] |}.

(** [do_entry]: the boolean tells the table to keep on iterating. *)
Definition do_entry (cache : list (oop * CachedOopInfo)) (fuel : nat)
    (orig_obj : oop) (value : CachedOopInfo) (verf : CDSHeapVerifier)
  : option (bool * CDSHeapVerifier) :=
  let archived_objs := jint_incr (_archived_objs verf) in
  match _table verf !! orig_obj with
  | Some info =>
      match trace_to_root cache fuel orig_obj NULL value with
      | None => None
      | Some (_, lines) =>
          Some (true,
                {| _archived_objs := archived_objs;
                   _problems := jint_incr (_problems verf);
                   _table := _table verf;
                   warnings := warnings verf ++ [Problem info orig_obj lines] |})
      end
  | None =>
      Some (true,
            {| _archived_objs := archived_objs;
               _problems := _problems verf;
               _table := _table verf;
               warnings := warnings verf |})
  end.

(** Modelled from the spec: [iterate] of the host's hash table (not part of
    the sources) visits the entries of the cache in the table's order and
    stops when the visitor returns false. *)
Fixpoint iterate (cache : list (oop * CachedOopInfo)) (fuel : nat)
    (entries : list (oop * CachedOopInfo)) (verf : CDSHeapVerifier)
  : option CDSHeapVerifier :=
  match entries with
  | [] => Some verf
  | (orig_obj, value) :: rest =>
      match do_entry cache fuel orig_obj value verf with
      | None => None
      | Some (keep_on, verf') =>
          if keep_on then iterate cache fuel rest verf' else Some verf'
      end
  end.

(** The destructor. *)
Definition CDSHeapVerifier_delete (verf : CDSHeapVerifier) : list log_event :=
  if (_problems verf >? 0)%Z
  then warnings verf ++ [Summary (_archived_objs verf) (_problems verf)]
  else warnings verf.

(** [verify]: the warning log it leaves, or [None] when a trace fails. *)
Definition verify (classes : list KlassPtr) (cache : list (oop * CachedOopInfo)) (fuel : nat)
  : option (list log_event) :=
  let verf := CDSHeapVerifier_new classes in
  match iterate cache fuel cache verf with
  | None => None
  | Some verf' => Some (CDSHeapVerifier_delete verf')
  end.

End Verifier.

Arguments klass vm o : assert.
Arguments obj_field vm o offset : assert.

(** ** Reading the log *)

(** The violations a log reports: the origin printed on the "Field:" line
    and the object printed on the "Value:" line. *)
Definition violations (log : list log_event) : list (StaticFieldInfo * oop) :=
  omap (fun e => match e with
                 | Problem info value _ => Some (info, value)
                 | Summary _ _ => None
                 end) log.

Definition is_Summary (e : log_event) : bool :=
  match e with Summary _ _ => true | Problem _ _ _ => false end.

Definition line_level (l : trace_line) : Z :=
  match l with
  | StringTableLine level => level
  | HopLine level _ _ _ => level
  end.

(** ** A small host for the scenarios *)

Definition assoc_default {A : Type} (l : list (Z * A)) (d : A) (key : Z) : A :=
  match List.find (fun e => (fst e =? key)%Z) l with
  | Some e => snd e
  | None => d
  end.

Definition mk_obj (k : KlassPtr) (fields : list (Z * oop)) (elems : list oop) : oopDesc :=
  {| o_klass := k; o_obj_field := assoc_default fields NULL; o_elems := elems |}.

Definition mk_field (name : string) (static : bool) (t : BasicType) (offset : Z)
    (final initial : bool) : fieldDescriptor :=
  {| fd_name := name; fd_is_static := static; fd_field_type := t; fd_offset := offset;
     fd_is_final := final; fd_has_initial_value := initial |}.

Definition mk_instance_klass (name : string) (mirror : oop) (fields : list fieldDescriptor)
    (root enum : bool) : Klass :=
  {| k_name := name; k_is_instance_klass := true; k_is_objArray_klass := false;
     k_fields := fields; k_java_mirror := mirror;
     k_is_subgraph_root_class := root; k_has_archived_enum_objs := enum |}.

Definition ex_Foo : KlassPtr := 1%Z.
Definition ex_Bar : KlassPtr := 2%Z.
Definition ex_System : KlassPtr := 3%Z.
Definition ex_E : KlassPtr := 4%Z.
Definition ex_String : KlassPtr := 5%Z.
Definition ex_Class : KlassPtr := 6%Z.
Definition ex_ObjectArray : KlassPtr := 7%Z.
Definition ex_Lit : KlassPtr := 8%Z.
Definition ex_Alias : KlassPtr := 9%Z.
Definition ex_ClassLoader : KlassPtr := 10%Z.

(** Objects: 101..110 are the mirrors of the classes 1..10. *)
Definition ex_O : oop := 200%Z.        (* a Foo, held by Foo.archivedFoo and Bar.bar *)
Definition ex_P : oop := 201%Z.        (* held by System.bootLayer *)
Definition ex_Q : oop := 202%Z.        (* an E, held by E.CONST *)
Definition ex_S : oop := 203%Z.        (* a String, held by Lit.S and Alias.T *)
Definition ex_A : oop := 204%Z.        (* an Object[], held by Alias.ARR and Alias.OBJ *)
Definition ex_R : oop := 205%Z.        (* a Foo whose field bar holds the array ex_A *)
Definition ex_X : oop := 206%Z.        (* a Foo none of whose fields holds ex_O *)

Definition ex_klasses : list (Z * Klass) :=
  [ (ex_Foo, mk_instance_klass "Foo" 101
       [mk_field "archivedFoo" true T_OBJECT 8 false false;
        mk_field "count" false T_INT 12 false false;
        mk_field "bar" false T_OBJECT 16 false false;
        mk_field "next" false T_OBJECT 24 false false] false false);
    (ex_Bar, mk_instance_klass "Bar" 102
       [mk_field "bar" true T_OBJECT 8 true false] false false);
    (ex_System, mk_instance_klass "java/lang/System" 103
       [mk_field "bootLayer" true T_OBJECT 8 false false;
        mk_field "props" true T_OBJECT 16 false false] false false);
    (ex_E, mk_instance_klass "E" 104
       [mk_field "CONST" true T_OBJECT 8 true false] false true);
    (ex_String, mk_instance_klass "java/lang/String" 105 [] false false);
    (ex_Class, mk_instance_klass "java/lang/Class" 106 [] false false);
    (ex_ObjectArray,
       {| k_name := "[Ljava/lang/Object;"; k_is_instance_klass := false;
          k_is_objArray_klass := true; k_fields := []; k_java_mirror := 107;
          k_is_subgraph_root_class := false; k_has_archived_enum_objs := false |});
    (ex_Lit, mk_instance_klass "Lit" 108
       [mk_field "S" true T_OBJECT 8 true true] false false);
    (ex_Alias, mk_instance_klass "Alias" 109
       [mk_field "T" true T_OBJECT 8 false false;
        mk_field "ARR" true T_ARRAY 16 false false;
        mk_field "OBJ" true T_OBJECT 24 false false] false false);
    (ex_ClassLoader, mk_instance_klass "java/lang/ClassLoader" 110
       [mk_field "scl" true T_OBJECT 8 false false] false false) ].

Definition ex_objects : list (Z * oopDesc) :=
  [ (101, mk_obj ex_Class [(8, ex_O)] []);
    (102, mk_obj ex_Class [(8, ex_O)] []);
    (103, mk_obj ex_Class [(8, ex_P)] []);
    (104, mk_obj ex_Class [(8, ex_Q)] []);
    (105, mk_obj ex_Class [] []);
    (106, mk_obj ex_Class [] []);
    (107, mk_obj ex_Class [] []);
    (108, mk_obj ex_Class [(8, ex_S)] []);
    (109, mk_obj ex_Class [(8, ex_S); (16, ex_A); (24, ex_A)] []);
    (110, mk_obj ex_Class [] []);
    (ex_O, mk_obj ex_Foo [] []);
    (ex_P, mk_obj ex_Foo [] []);
    (ex_Q, mk_obj ex_E [] []);
    (ex_S, mk_obj ex_String [] []);
    (ex_A, mk_obj ex_ObjectArray [] [ex_P; ex_O; ex_O]);
    (ex_R, mk_obj ex_Foo [(16, ex_A); (24, ex_A)] []);
    (ex_X, mk_obj ex_Foo [(16, ex_P)] []) ]%Z.

Definition ex_vm : Host :=
  {| heap := assoc_default ex_objects (mk_obj 0 [] []);
     metaspace := assoc_default ex_klasses (mk_instance_klass "" 0 [] false false);
     String_klass := ex_String;
     Class_klass := ex_Class |}.

Definition root_entry : CachedOopInfo := {| _referrer := NULL |}.
Definition entry_from (referrer : oop) : CachedOopInfo := {| _referrer := referrer |}.

(** ** The properties, stated on the model *)

Section Properties.

Variable vm : Host.
Variable excl : list (string * list string).

(** The current value of a static field of class [c]. *)
Definition static_value (c : KlassPtr) (fd : fieldDescriptor) : oop :=
  obj_field vm (k_java_mirror (metaspace vm c)) (fd_offset fd).

Definition origin (c : KlassPtr) (fd : fieldDescriptor) : StaticFieldInfo :=
  {| _holder := c; _name := fd_name fd |}.

(** Where [do_klass] ends for a field of class [k]. *)
Inductive klass_field_outcome : Set :=
| KlassNotInstance
| KlassIsRoot
| FieldOutcome (o : field_outcome).

#[global] Instance klass_field_outcome_eq_dec : EqDecision klass_field_outcome.
Proof. solve_decision. Defined.

Definition do_klass_field (k : KlassPtr) (fd : fieldDescriptor) : klass_field_outcome :=
  if k_is_instance_klass (metaspace vm k) then
    if k_is_subgraph_root_class (metaspace vm k) then KlassIsRoot
    else FieldOutcome
           (scan_field vm (k_java_mirror (metaspace vm k))
              (find_exclusion excl (k_name (metaspace vm k))) fd)
  else KlassNotInstance.

(** [do_klass] puts the value of [fd] of class [c], which is [v], in the table. *)
Definition indexes (c : KlassPtr) (fd : fieldDescriptor) (v : oop) : Prop :=
  do_klass_field c fd = FieldOutcome Indexed ∧ static_value c fd = v.

(** The effect of one iteration of the field loop of [do_klass] on the table. *)
Definition index_field (c : KlassPtr) (table : gmap Z StaticFieldInfo)
    (fd : fieldDescriptor) : gmap Z StaticFieldInfo :=
  match do_klass_field c fd with
  | FieldOutcome Indexed => <[ static_value c fd := origin c fd ]> table
  | _ => table
  end.

(** No field of the classes [cs] puts [v] in the table. *)
Definition classes_miss (cs : list KlassPtr) (v : oop) : Prop :=
  ∀ c fd, c ∈ cs → fd ∈ k_fields (metaspace vm c) → ¬ indexes c fd v.

(** The hits of the cross-check: for every entry whose object is in the
    table, the origin found and the object. *)
Definition hits (table : gmap Z StaticFieldInfo) (entries : list (oop * CachedOopInfo))
  : list (StaticFieldInfo * oop) :=
  omap (fun e => match table !! fst e with
                 | Some info => Some (info, fst e)
                 | None => None
                 end) entries.

(** The six skip rules of the specification. *)
Inductive skip_rule : Set := Rule1 | Rule2 | Rule3 | Rule4 | Rule5 | Rule6.

Definition is_excluded (c : KlassPtr) (fd : fieldDescriptor) : bool :=
  match find_exclusion excl (k_name (metaspace vm c)) with
  | Some names => excluded_in names (fd_name fd)
  | None => false
  end.

Definition rule_matches (c : KlassPtr) (fd : fieldDescriptor) (r : skip_rule) : bool :=
  let v := static_value c fd in
  match r with
  | Rule1 => k_is_subgraph_root_class (metaspace vm c)
  | Rule2 => is_excluded c fd
  | Rule3 => (v =? NULL)%Z
  | Rule4 => fd_is_final fd && java_lang_String_is_instance vm v && fd_has_initial_value fd
  | Rule5 => fd_is_final fd && java_lang_Class_is_instance vm v
  | Rule6 => k_has_archived_enum_objs (metaspace vm (klass vm v))
  end.

(** The first rule of [order] that matches the field. *)
Definition first_rule (order : list skip_rule) (c : KlassPtr) (fd : fieldDescriptor)
  : option skip_rule :=
  List.find (rule_matches c fd) order.

(** The rule at which the code leaves a field. *)
Definition rule_of_outcome (o : klass_field_outcome) : option skip_rule :=
  match o with
  | KlassIsRoot => Some Rule1
  | FieldOutcome SkipExcluded => Some Rule2
  | FieldOutcome SkipNull => Some Rule3
  | FieldOutcome SkipLiteralString => Some Rule4
  | FieldOutcome SkipMirror => Some Rule5
  | FieldOutcome SkipEnum => Some Rule6
  | _ => None
  end.

(** A static object field of an instance class. *)
Definition static_object_field (c : KlassPtr) (fd : fieldDescriptor) : Prop :=
  k_is_instance_klass (metaspace vm c) = true ∧
  fd_is_static fd = true ∧ fd_field_type fd = T_OBJECT.

(** A violation that names class [c] and field name [f]. *)
Definition names (c : KlassPtr) (f : string) (x : StaticFieldInfo * oop) : bool :=
  (_holder (fst x) =? c)%Z && String.eqb (_name (fst x)) f.

Definition about (v : oop) (x : StaticFieldInfo * oop) : bool := (snd x =? v)%Z.

(** The referrer chain of an entry reaches a root in [n] steps through
    entries of the cache, and every referrer on it is an instance or an
    object array. *)
Inductive rooted (cache : list (oop * CachedOopInfo)) : oop -> CachedOopInfo -> nat -> Prop :=
| rooted_root o p :
    _referrer p = NULL -> rooted cache o p 0
| rooted_step o p ref n :
    _referrer p ≠ NULL ->
    cache_get cache (_referrer p) = Some ref ->
    k_is_instance_klass (metaspace vm (klass vm (_referrer p)))
      || k_is_objArray_klass (metaspace vm (klass vm (_referrer p))) = true ->
    rooted cache (_referrer p) ref n ->
    rooted cache o p (S n).

(** Every entry visited has a referrer chain shorter than the bound. *)
Definition traceable (cache entries : list (oop * CachedOopInfo)) (fuel : nat) : Prop :=
  ∀ o p, (o, p) ∈ entries → ∃ n, (n < fuel)%nat ∧ rooted cache o p n.

(** An instance field the parent re-scan looks at. *)
Definition object_valued (fd : fieldDescriptor) : Prop :=
  fd_is_static fd = false ∧ (fd_field_type fd = T_OBJECT ∨ fd_field_type fd = T_ARRAY).

Definition field_matches (parent child : oop) (fd : fieldDescriptor) : Prop :=
  object_valued fd ∧ obj_field vm parent (fd_offset fd) = child.

(** What is printed on [parent] is its first field, or element, that is [child]. *)
Definition printed_first_match (parent child : oop) (f : hop_field) : Prop :=
  match f with
  | FieldAt name offset =>
      k_is_instance_klass (metaspace vm (klass vm parent)) = true ∧
      ∃ before fd after,
        k_fields (metaspace vm (klass vm parent)) = before ++ fd :: after ∧
        fd_name fd = name ∧ fd_offset fd = offset ∧
        field_matches parent child fd ∧
        ∀ fd', fd' ∈ before → ¬ field_matches parent child fd'
  | ElemAt i =>
      k_is_instance_klass (metaspace vm (klass vm parent)) = false ∧
      (0 ≤ i)%Z ∧
      o_elems (heap vm parent) !! Z.to_nat i = Some child ∧
      ∀ j, (j < Z.to_nat i)%nat → o_elems (heap vm parent) !! j ≠ Some child
  | NoField =>
      child = NULL ∨
      (k_is_instance_klass (metaspace vm (klass vm parent)) = true ∧
       ∀ fd, fd ∈ k_fields (metaspace vm (klass vm parent)) → ¬ field_matches parent child fd) ∨
      (k_is_instance_klass (metaspace vm (klass vm parent)) = false ∧
       ∀ e, e ∈ o_elems (heap vm parent) → e ≠ child)
  end.

(** The entry of an object on the trace of [(o, p)]. *)
Definition entry_of (cache : list (oop * CachedOopInfo)) (o : oop) (p : CachedOopInfo)
    (r : oop) (pr : CachedOopInfo) : Prop :=
  (r = o ∧ pr = p) ∨ cache_get cache r = Some pr.

(** The printed levels are 0, 1, 2, ... from the first line on. *)
Definition levels_from_zero (lines : list trace_line) : Prop :=
  map line_level lines = map Z.of_nat (seq 0 (length lines)).

(** The first hop is a root of the cache: an object whose entry has no
    referrer, preceded by the string table line when it is a string. *)
Definition starts_at_root (cache : list (oop * CachedOopInfo)) (o : oop) (p : CachedOopInfo)
    (lines : list trace_line) : Prop :=
  ∃ r pr type_name f rest,
    (lines = HopLine 0 r type_name f :: rest ∨
     (lines = StringTableLine 0 :: HopLine 1 r type_name f :: rest ∧
      java_lang_String_is_instance vm r = true)) ∧
    entry_of cache o p r pr ∧ _referrer pr = NULL.

(** The last line is the hop of [o], with no field or index. *)
Definition ends_at (o : oop) (level : Z) (lines : list trace_line) : Prop :=
  ∃ before,
    lines = before ++ [HopLine level o (k_name (metaspace vm (klass vm o))) NoField].

(** For every two consecutive hops, what is printed on the first is its
    first field or element holding the second. *)
Definition hops_linked (lines : list trace_line) : Prop :=
  ∀ before l1 parent n1 f1 l2 child n2 f2 rest,
    lines = before ++ HopLine l1 parent n1 f1 :: HopLine l2 child n2 f2 :: rest →
    printed_first_match parent child f1.

(** No field of an instance parent, or element of an array parent, is [child]. *)
Definition no_match (parent child : oop) : Prop :=
  (k_is_instance_klass (metaspace vm (klass vm parent)) = true ∧
   ∀ fd, fd ∈ k_fields (metaspace vm (klass vm parent)) → ¬ field_matches parent child fd) ∨
  (k_is_instance_klass (metaspace vm (klass vm parent)) = false ∧
   k_is_objArray_klass (metaspace vm (klass vm parent)) = true ∧
   ∀ e, e ∈ o_elems (heap vm parent) → e ≠ child).

(** *** The properties as the specification words them *)

(** Completeness, as stated: every qualifying field is named by exactly one
    violation. *)
Definition completeness_as_stated (classes : list KlassPtr)
    (cache : list (oop * CachedOopInfo)) (fuel : nat) : Prop :=
  ∀ c fd p,
    c ∈ classes → fd ∈ k_fields (metaspace vm c) → static_object_field c fd →
    rule_matches c fd Rule1 = false → rule_matches c fd Rule2 = false →
    rule_matches c fd Rule3 = false → (static_value c fd, p) ∈ cache →
    rule_matches c fd Rule4 = false → rule_matches c fd Rule5 = false →
    rule_matches c fd Rule6 = false →
    ∃ log, verify vm excl classes cache fuel = Some log ∧
           length (List.filter (names c (fd_name fd)) (violations log)) = 1%nat.

(** The indexing condition, as stated: with the rules applied in the order
    1, 2, 3, 4, 5, 6. *)
Definition spec_order : list skip_rule := [Rule1; Rule2; Rule3; Rule4; Rule5; Rule6].

Definition indexing_condition_as_stated (classes : list KlassPtr) : Prop :=
  ∀ c fd,
    c ∈ classes → fd ∈ k_fields (metaspace vm c) → static_object_field c fd →
    (do_klass_field c fd = FieldOutcome Indexed ↔
       ∀ r, r ∈ spec_order → rule_matches c fd r = false) ∧
    rule_of_outcome (do_klass_field c fd) = first_rule spec_order c fd.

(** The order in which [do_klass] tests the rules. *)
Definition code_order : list skip_rule := [Rule1; Rule3; Rule2; Rule4; Rule5; Rule6].

(** The summary, as stated: every run logs it. *)
Definition summary_as_stated (classes : list KlassPtr)
    (cache : list (oop * CachedOopInfo)) (fuel : nat) : Prop :=
  ∀ log, verify vm excl classes cache fuel = Some log →
    Summary (Z.of_nat (length cache)) (Z.of_nat (length (violations log))) ∈ log.

(** No false positive for literal strings, as stated: the value is never
    reported. *)
Definition literal_string_as_stated (classes : list KlassPtr)
    (cache : list (oop * CachedOopInfo)) (fuel : nat) : Prop :=
  ∀ c fd,
    c ∈ classes → fd ∈ k_fields (metaspace vm c) → static_object_field c fd →
    fd_is_final fd = true →
    java_lang_String_is_instance vm (static_value c fd) = true →
    fd_has_initial_value fd = true →
    do_klass_field c fd ≠ FieldOutcome Indexed ∧
    ∀ log info, verify vm excl classes cache fuel = Some log →
      (info, static_value c fd) ∉ violations log.

(** Array-typed static fields, as stated: the value is never reported. *)
Definition array_field_as_stated (classes : list KlassPtr)
    (cache : list (oop * CachedOopInfo)) (fuel : nat) : Prop :=
  ∀ c fd,
    c ∈ classes → fd ∈ k_fields (metaspace vm c) →
    k_is_instance_klass (metaspace vm c) = true →
    fd_is_static fd = true → fd_field_type fd = T_ARRAY →
    do_klass_field c fd ≠ FieldOutcome Indexed ∧
    ∀ log info, verify vm excl classes cache fuel = Some log →
      (info, static_value c fd) ∉ violations log.

End Properties.

(** ** Further properties of the trace *)

Section TraceShape.

Variable vm : Host.

(** The referrer chain of the entry [p] of [o] reaches, in [n] steps through
    entries of the cache, the object [r] whose entry has no referrer. *)
Inductive chain_root (cache : list (oop * CachedOopInfo))
  : oop -> CachedOopInfo -> nat -> oop -> Prop :=
| chain_root_here o p :
    _referrer p = NULL -> chain_root cache o p 0 o
| chain_root_step o p ref n r :
    _referrer p ≠ NULL ->
    cache_get cache (_referrer p) = Some ref ->
    chain_root cache (_referrer p) ref n r ->
    chain_root cache o p (S n) r.

(** In every two consecutive hops, the first is the referrer recorded in the
    entry of the second. *)
Definition hops_follow_referrers (cache : list (oop * CachedOopInfo)) (o : oop)
    (p : CachedOopInfo) (lines : list trace_line) : Prop :=
  ∀ before l1 parent n1 f1 l2 child n2 f2 rest,
    lines = before ++ HopLine l1 parent n1 f1 :: HopLine l2 child n2 f2 :: rest →
    ∃ pc, entry_of cache o p child pc ∧ _referrer pc = parent.

(** Every hop is printed with the name of the class of its object. *)
Definition hops_typed (lines : list trace_line) : Prop :=
  ∀ l obj type_name f,
    HopLine l obj type_name f ∈ lines →
    type_name = k_name (metaspace vm (klass vm obj)).

End TraceShape.

(** The scenario host with one more object: an int[], whose class is
    neither an instance class nor an object array class. *)
Definition ex_IntArray : KlassPtr := 11%Z.
Definition ex_I : oop := 300%Z.

Definition ex_vm_typeArray : Host :=
  {| heap := fun a => if (a =? ex_I)%Z then mk_obj ex_IntArray [] [] else heap ex_vm a;
     metaspace := fun k =>
       if (k =? ex_IntArray)%Z
       then {| k_name := "[I"; k_is_instance_klass := false;
               k_is_objArray_klass := false; k_fields := [];
               k_java_mirror := 111; k_is_subgraph_root_class := false;
               k_has_archived_enum_objs := false |}
       else metaspace ex_vm k;
     String_klass := ex_String;
     Class_klass := ex_Class |}.

(** The scenario host where Bar also declares [static final Class TYPE],
    holding the mirror of Foo. *)
Definition ex_vm_mirror : Host :=
  {| heap := fun a =>
       if (a =? 102)%Z then mk_obj ex_Class [(8, ex_O); (16, 101)]%Z [] else heap ex_vm a;
     metaspace := fun k =>
       if (k =? ex_Bar)%Z
       then mk_instance_klass "Bar" 102
              [mk_field "bar" true T_OBJECT 8 true false;
               mk_field "TYPE" true T_OBJECT 16 true false] false false
       else metaspace ex_vm k;
     String_klass := ex_String;
     Class_klass := ex_Class |}.

(** * Proofs *)

(** ** The scenarios, evaluated *)

(** Scenario A: Foo.archivedFoo holds O, a root of the cache: one problem
    naming Foo::archivedFoo, with a trace of one hop. *)
Example scenario_A :
  verify ex_vm exclusion_table [ex_Foo] [(ex_O, root_entry)] 5
  = Some [Problem {| _holder := ex_Foo; _name := "archivedFoo" |} ex_O
            [HopLine 0 ex_O "Foo" NoField];
          Summary 1 1].
Proof. reflexivity. Qed.

(** Scenario B: System.bootLayer is exempted: no problem, nothing logged. *)
Example scenario_B :
  verify ex_vm exclusion_table [ex_System] [(ex_P, root_entry)] 5 = Some [].
Proof. reflexivity. Qed.

(** Scenario D: System.props is null and System.bootLayer is exempted;
    neither is indexed. *)
Example scenario_D :
  classes_do ex_vm exclusion_table [ex_System] ∅ = ∅.
Proof. reflexivity. Qed.

(** A string root is traced through the string table line. *)
Example string_root_trace :
  trace_to_root ex_vm [(ex_S, root_entry)] 5 ex_S NULL root_entry
  = Some (1%Z, [StringTableLine 0; HopLine 1 ex_S "java/lang/String" NoField]).
Proof. reflexivity. Qed.

(** A referrer that is not in the cache fails the assertion. *)
Example missing_referrer :
  trace_to_root ex_vm [(ex_O, entry_from ex_X)] 5 ex_O NULL (entry_from ex_X) = None.
Proof. reflexivity. Qed.

(** The 32-bit increment wraps at [max_jint]. *)
Example jint_incr_wraps : jint_incr max_jint = (-2147483648)%Z.
Proof. reflexivity. Qed.

Section ScanProofs.

Context (vm : Host) (excl : list (string * list string)).

Lemma do_klass_fold (t : gmap Z StaticFieldInfo) (k : KlassPtr) :
  do_klass vm excl t k = fold_left (index_field vm excl k) (k_fields (metaspace vm k)) t.
Proof.
  unfold do_klass, index_field, do_klass_field.
  destruct (k_is_instance_klass (metaspace vm k)).
  - destruct (k_is_subgraph_root_class (metaspace vm k)).
    + induction (k_fields (metaspace vm k)); simpl; auto.
    + reflexivity.
  - induction (k_fields (metaspace vm k)); simpl; auto.
Qed.

Lemma index_field_lookup (c : KlassPtr) (t : gmap Z StaticFieldInfo) fd (v : Z) :
  index_field vm excl c t fd !! v =
    if decide (do_klass_field vm excl c fd = FieldOutcome Indexed ∧ static_value vm c fd = v)
    then Some (origin c fd) else t !! v.
Proof.
  unfold index_field.
  destruct (decide _) as [[H1 H2]|Hn].
  - rewrite H1, H2. apply lookup_insert_eq.
  - destruct (do_klass_field vm excl c fd) as [| |o] eqn:E; try reflexivity.
    destruct o; try reflexivity.
    apply lookup_insert_ne. intros Heq. apply Hn. auto.
Qed.

Lemma index_fields_miss (c : KlassPtr) fs (t : gmap Z StaticFieldInfo) (v : Z) :
  (∀ fd, fd ∈ fs → ¬ indexes vm excl c fd v) →
  fold_left (index_field vm excl c) fs t !! v = t !! v.
Proof.
  revert t. induction fs as [|fd fs IH]; intros t H; simpl; [reflexivity|].
  rewrite IH.
  - rewrite index_field_lookup. destruct (decide _) as [Hd|]; [|reflexivity].
    exfalso. apply (H fd); [left|exact Hd].
  - intros fd' Hin. apply H. right. exact Hin.
Qed.

Lemma index_fields_last (c : KlassPtr) fs1 fd fs2 (t : gmap Z StaticFieldInfo) (v : Z) :
  indexes vm excl c fd v →
  (∀ fd', fd' ∈ fs2 → ¬ indexes vm excl c fd' v) →
  fold_left (index_field vm excl c) (fs1 ++ fd :: fs2) t !! v = Some (origin c fd).
Proof.
  intros Hi Hmiss. rewrite fold_left_app. simpl.
  rewrite index_fields_miss by exact Hmiss.
  rewrite index_field_lookup. destruct (decide _) as [|Hn]; [reflexivity|].
  exfalso. apply Hn. exact Hi.
Qed.

Lemma index_fields_inv (c : KlassPtr) fs (t : gmap Z StaticFieldInfo) (v : Z) info :
  fold_left (index_field vm excl c) fs t !! v = Some info →
  t !! v = Some info ∨ ∃ fd, fd ∈ fs ∧ indexes vm excl c fd v ∧ info = origin c fd.
Proof.
  revert t. induction fs as [|fd fs IH]; intros t H; simpl in H; [left; exact H|].
  destruct (IH _ H) as [Ht|(fd' & Hin & Hi & ->)].
  - rewrite index_field_lookup in Ht. destruct (decide _) as [Hd|].
    + right. exists fd. split; [left|]. split; [exact Hd|congruence].
    + left. exact Ht.
  - right. exists fd'. split; [right; exact Hin|]. auto.
Qed.

Lemma classes_do_miss cs (t : gmap Z StaticFieldInfo) (v : Z) :
  classes_miss vm excl cs v →
  classes_do vm excl cs t !! v = t !! v.
Proof.
  unfold classes_do. revert t.
  induction cs as [|c cs IH]; intros t H; simpl; [reflexivity|].
  rewrite IH.
  - rewrite do_klass_fold. apply index_fields_miss.
    intros fd Hin. apply H; [left|exact Hin].
  - intros c' fd Hc Hfd. apply H; [right; exact Hc|exact Hfd].
Qed.

Lemma classes_do_last cs1 c cs2 fs1 fd fs2 (t : gmap Z StaticFieldInfo) (v : Z) :
  k_fields (metaspace vm c) = fs1 ++ fd :: fs2 →
  indexes vm excl c fd v →
  (∀ fd', fd' ∈ fs2 → ¬ indexes vm excl c fd' v) →
  classes_miss vm excl cs2 v →
  classes_do vm excl (cs1 ++ c :: cs2) t !! v = Some (origin c fd).
Proof.
  intros Hf Hi Hfs Hcs. unfold classes_do.
  rewrite fold_left_app. simpl.
  change (classes_do vm excl cs2 (do_klass vm excl (fold_left (do_klass vm excl) cs1 t) c) !! v
          = Some (origin c fd)).
  rewrite classes_do_miss by exact Hcs.
  rewrite do_klass_fold, Hf. apply index_fields_last; assumption.
Qed.

Lemma classes_do_inv cs (t : gmap Z StaticFieldInfo) (v : Z) info :
  classes_do vm excl cs t !! v = Some info →
  t !! v = Some info ∨
  ∃ c fd, c ∈ cs ∧ fd ∈ k_fields (metaspace vm c) ∧ indexes vm excl c fd v ∧ info = origin c fd.
Proof.
  unfold classes_do. revert t.
  induction cs as [|c cs IH]; intros t H; simpl in H; [left; exact H|].
  destruct (IH _ H) as [Ht|(c' & fd & Hc & Hfd & Hi & ->)].
  - rewrite do_klass_fold in Ht.
    destruct (index_fields_inv _ _ _ _ _ Ht) as [Ht'|(fd & Hin & Hi & ->)].
    + left. exact Ht'.
    + right. exists c, fd. split; [left|]. auto.
  - right. exists c', fd. split; [right; exact Hc|]. auto.
Qed.

End ScanProofs.

Section TraceProofs.

Context (vm : Host).

Lemma BasicType_eqb_eq (a b : BasicType) : BasicType_eqb a b = true ↔ a = b.
Proof. destruct a, b; simpl; split; intros H; try reflexivity; discriminate. Qed.

Lemma jint_incr_small (x : Z) : (0 ≤ x < max_jint)%Z → jint_incr x = (x + 1)%Z.
Proof.
  unfold jint_incr, wrap_jint, max_jint. intros H.
  rewrite Z.mod_small; lia.
Qed.

Lemma field_matches_dec (parent child : Z) fd :
  (negb (fd_is_static fd)
   && (BasicType_eqb (fd_field_type fd) T_OBJECT || BasicType_eqb (fd_field_type fd) T_ARRAY)
   && (obj_field vm parent (fd_offset fd) =? child)%Z) = true
  ↔ field_matches vm parent child fd.
Proof.
  unfold field_matches, object_valued.
  rewrite !andb_true_iff, orb_true_iff, negb_true_iff, !BasicType_eqb_eq, Z.eqb_eq.
  tauto.
Qed.

Lemma find_field_step (parent child : Z) fd rest :
  find_field vm parent child (fd :: rest) =
    if negb (fd_is_static fd)
       && (BasicType_eqb (fd_field_type fd) T_OBJECT || BasicType_eqb (fd_field_type fd) T_ARRAY)
       && (obj_field vm parent (fd_offset fd) =? child)%Z
    then FieldAt (fd_name fd) (fd_offset fd)
    else find_field vm parent child rest.
Proof.
  simpl. destruct (negb (fd_is_static fd)); simpl; [|reflexivity].
  destruct (BasicType_eqb _ T_OBJECT || BasicType_eqb _ T_ARRAY); reflexivity.
Qed.

Lemma find_field_spec (parent child : Z) fields :
  match find_field vm parent child fields with
  | FieldAt name offset =>
      ∃ before fd after,
        fields = before ++ fd :: after ∧ fd_name fd = name ∧ fd_offset fd = offset ∧
        field_matches vm parent child fd ∧
        ∀ fd', fd' ∈ before → ¬ field_matches vm parent child fd'
  | NoField => ∀ fd, fd ∈ fields → ¬ field_matches vm parent child fd
  | ElemAt _ => False
  end.
Proof.
  induction fields as [|fd rest IH].
  - simpl. intros fd H. inversion H.
  - rewrite find_field_step.
    destruct (negb _ && _ && _) eqn:E.
    + apply field_matches_dec in E.
      exists [], fd, rest.
      split; [reflexivity|]. split; [reflexivity|]. split; [reflexivity|].
      split; [exact E|]. intros fd' H. inversion H.
    + assert (Hn : ¬ field_matches vm parent child fd).
      { intros Hm. apply field_matches_dec in Hm. congruence. }
      destruct (find_field vm parent child rest) as [|name offset|i].
      * intros fd' Hin. apply elem_of_cons in Hin as [->|Hin]; auto.
      * destruct IH as (before & fd0 & after & -> & Hname & Hoff & Hm & Hb).
        exists (fd :: before), fd0, after.
        split; [reflexivity|]. split; [exact Hname|]. split; [exact Hoff|].
        split; [exact Hm|].
        intros fd' Hin. apply elem_of_cons in Hin as [->|Hin]; auto.
      * exact IH.
Qed.

Lemma find_elem_spec (child : Z) elems (i0 : Z) :
  match find_elem child elems i0 with
  | ElemAt i =>
      (i0 ≤ i)%Z ∧ elems !! Z.to_nat (i - i0) = Some child ∧
      ∀ j, (j < Z.to_nat (i - i0))%nat → elems !! j ≠ Some child
  | NoField => ∀ e, e ∈ elems → e ≠ child
  | FieldAt _ _ => False
  end.
Proof.
  revert i0. induction elems as [|e rest IH]; intros i0; simpl.
  - intros e H. inversion H.
  - destruct (e =? child)%Z eqn:E.
    + apply Z.eqb_eq in E. subst e. rewrite Z.sub_diag. simpl.
      split; [lia|]. split; [reflexivity|]. intros j Hj. lia.
    + apply Z.eqb_neq in E. specialize (IH (i0 + 1)%Z).
      destruct (find_elem child rest (i0 + 1)) as [|name offset|i].
      * intros e' Hin. apply elem_of_cons in Hin as [->|Hin]; auto.
      * exact IH.
      * destruct IH as (Hle & Hlk & Hb).
        split; [lia|].
        replace (Z.to_nat (i - i0)) with (S (Z.to_nat (i - (i0 + 1)))) by lia.
        split; [exact Hlk|].
        intros [|j] Hj; simpl; [congruence|]. apply Hb. lia.
Qed.

Lemma hop_field_of_spec (parent child : Z) f :
  hop_field_of vm parent child = Some f → printed_first_match vm parent child f.
Proof.
  unfold hop_field_of.
  destruct (child =? NULL)%Z eqn:En; simpl.
  - intros [= <-]. left. apply Z.eqb_eq. exact En.
  - destruct (k_is_instance_klass (metaspace vm (klass vm parent))) eqn:Ei.
    + intros [= <-].
      pose proof (find_field_spec parent child
                    (k_fields (metaspace vm (klass vm parent)))) as H.
      destruct (find_field _ _ _ _) as [|name offset|i]; simpl.
      * right. left. auto.
      * split; [exact Ei|exact H].
      * contradiction.
    + destruct (k_is_objArray_klass (metaspace vm (klass vm parent))); [|discriminate].
      intros [= <-].
      pose proof (find_elem_spec child (o_elems (heap vm parent)) 0) as H.
      destruct (find_elem _ _ _) as [|name offset|i]; simpl.
      * right. right. auto.
      * contradiction.
      * rewrite Z.sub_0_r in H. destruct H as (H0 & Hlk & Hb). auto.
Qed.

Lemma hop_field_of_total (o field : Z) :
  field = NULL ∨
  k_is_instance_klass (metaspace vm (klass vm o))
    || k_is_objArray_klass (metaspace vm (klass vm o)) = true →
  ∃ f, hop_field_of vm o field = Some f.
Proof.
  unfold hop_field_of. intros [->|H].
  - simpl. eauto.
  - destruct (negb _); [|eauto].
    destruct (k_is_instance_klass _); [eauto|].
    simpl in H. rewrite H. eauto.
Qed.

Lemma hop_field_of_no_match (parent child : Z) :
  no_match vm parent child → hop_field_of vm parent child = Some NoField.
Proof.
  unfold hop_field_of. intros H.
  destruct (negb (child =? NULL)%Z); [|reflexivity].
  destruct H as [[Hi Hf]|(Hi & Ha & He)]; rewrite Hi.
  - pose proof (find_field_spec parent child
                  (k_fields (metaspace vm (klass vm parent)))) as H.
    destruct (find_field _ _ _ _) as [|name offset|i]; [reflexivity| |contradiction].
    destruct H as (before & fd & after & Heq & _ & _ & Hm & _).
    exfalso. apply (Hf fd); [|exact Hm]. rewrite Heq.
    apply elem_of_app. right. left.
  - rewrite Ha.
    pose proof (find_elem_spec child (o_elems (heap vm parent)) 0) as H.
    destruct (find_elem _ _ _) as [|name offset|i]; [reflexivity|contradiction|].
    destruct H as (_ & Hlk & _).
    exfalso. apply (He child); [|reflexivity].
    apply list_elem_of_lookup. eauto.
Qed.

End TraceProofs.

Section TraceInvariant.

Context (vm : Host) (cache : list (Z * CachedOopInfo)).

Lemma trace_to_root_S (fuel : nat) (orig_obj orig_field : Z) (p : CachedOopInfo) :
  trace_to_root vm cache (S fuel) orig_obj orig_field p =
    match
      (if negb (_referrer p =? NULL)%Z then
         match cache_get cache (_referrer p) with
         | None => None
         | Some ref =>
             match trace_to_root vm cache fuel (_referrer p) orig_obj ref with
             | None => None
             | Some (l, lines) => Some (jint_incr l, lines)
             end
         end
       else if java_lang_String_is_instance vm orig_obj then
         Some (jint_incr 0%Z, [StringTableLine 0%Z])
       else Some (0%Z, []))
    with
    | None => None
    | Some (level, lines) =>
        match hop_field_of vm orig_obj orig_field with
        | None => None
        | Some f =>
            Some (level,
                  lines ++ [HopLine level orig_obj
                              (k_name (metaspace vm (klass vm orig_obj))) f])
        end
    end.
Proof. reflexivity. Qed.

Lemma levels_from_zero_snoc lines (o : Z) type_name f :
  levels_from_zero lines →
  levels_from_zero (lines ++ [HopLine (Z.of_nat (length lines)) o type_name f]).
Proof.
  unfold levels_from_zero. intros H.
  rewrite length_app, seq_app, !map_app, H. reflexivity.
Qed.

Lemma hops_linked_snoc lines l (o : Z) type_name f :
  hops_linked vm lines →
  (∀ before l1 parent n1 f1,
     lines = before ++ [HopLine l1 parent n1 f1] → printed_first_match vm parent o f1) →
  hops_linked vm (lines ++ [HopLine l o type_name f]).
Proof.
  intros Hl Hlast before l1 parent n1 f1 l2 child n2 f2 rest Heq.
  destruct rest as [|x rest _] using rev_ind.
  - change (before ++ [HopLine l1 parent n1 f1; HopLine l2 child n2 f2])
      with (before ++ [HopLine l1 parent n1 f1] ++ [HopLine l2 child n2 f2]) in Heq.
    rewrite app_assoc in Heq. apply app_inj_tail in Heq as [Heq Hh].
    injection Hh as _ <- _ _. eapply Hlast. exact Heq.
  - change (before ++ HopLine l1 parent n1 f1 :: HopLine l2 child n2 f2 :: rest ++ [x])
      with (before ++ (HopLine l1 parent n1 f1 :: HopLine l2 child n2 f2 :: rest) ++ [x])
      in Heq.
    rewrite app_assoc in Heq. apply app_inj_tail in Heq as [Heq _].
    eapply Hl. exact Heq.
Qed.

Lemma hops_linked_short lines :
  (length lines ≤ 2)%nat →
  (∀ l (o : Z) type_name f rest, lines = HopLine l o type_name f :: rest → rest = []) →
  hops_linked vm lines.
Proof.
  intros Hlen Hfirst before l1 parent n1 f1 l2 child n2 f2 rest Heq.
  subst lines. rewrite length_app in Hlen. simpl in Hlen.
  destruct before; [|simpl in Hlen; lia].
  specialize (Hfirst _ _ _ _ _ eq_refl). discriminate.
Qed.

(** What every trace that is printed satisfies. *)
Lemma trace_inv (fuel : nat) :
  (Z.of_nat fuel ≤ max_jint)%Z →
  ∀ (o field : Z) (p : CachedOopInfo) level lines,
    trace_to_root vm cache fuel o field p = Some (level, lines) →
    ∃ before f,
      lines = before ++ [HopLine level o (k_name (metaspace vm (klass vm o))) f] ∧
      level = Z.of_nat (length before) ∧
      hop_field_of vm o field = Some f ∧
      (length before ≤ fuel)%nat ∧
      levels_from_zero lines ∧
      starts_at_root vm cache o p lines ∧
      hops_linked vm lines.
Proof.
  induction fuel as [|fuel IH]; intros Hmax o field p level lines Ht; [discriminate|].
  rewrite trace_to_root_S in Ht.
  destruct (_referrer p =? NULL)%Z eqn:Er; simpl (negb _) in Ht; cbv iota in Ht.
  - apply Z.eqb_eq in Er.
    destruct (java_lang_String_is_instance vm o) eqn:Es;
      destruct (hop_field_of vm o field) as [f|] eqn:Hf; try discriminate;
      injection Ht as <- <-.
    + exists [StringTableLine 0%Z], f.
      split; [reflexivity|]. split; [reflexivity|]. split; [reflexivity|].
      split; [simpl; lia|]. split; [reflexivity|]. split.
      * exists o, p, (k_name (metaspace vm (klass vm o))), f, [].
        split; [right; split; [reflexivity|exact Es]|].
        split; [left; auto|exact Er].
      * apply hops_linked_short; [simpl; lia|].
        intros l o' tn f0 rest. discriminate.
    + exists [], f.
      split; [reflexivity|]. split; [reflexivity|]. split; [reflexivity|].
      split; [simpl; lia|]. split; [reflexivity|]. split.
      * exists o, p, (k_name (metaspace vm (klass vm o))), f, [].
        split; [left; reflexivity|]. split; [left; auto|exact Er].
      * apply hops_linked_short; [simpl; lia|].
        intros l o' tn f0 rest [= _ _ _ _ <-]. reflexivity.
  - destruct (cache_get cache (_referrer p)) as [ref|] eqn:Hget; [|discriminate].
    destruct (trace_to_root vm cache fuel (_referrer p) o ref) as [[l0 lines0]|] eqn:Ht0;
      [|discriminate].
    destruct (hop_field_of vm o field) as [f|] eqn:Hf; [|discriminate].
    injection Ht as <- <-.
    destruct (IH ltac:(lia) _ _ _ _ _ Ht0)
      as (before & f' & -> & -> & Hf' & Hlen & Hlev & Hstart & Hlink).
    rewrite jint_incr_small by lia.
    set (parent_line := HopLine (Z.of_nat (length before)) (_referrer p)
                          (k_name (metaspace vm (klass vm (_referrer p)))) f') in *.
    exists (before ++ [parent_line]), f.
    assert (Hl : (Z.of_nat (length before) + 1)%Z
                 = Z.of_nat (length (before ++ [parent_line]))).
    { rewrite length_app. simpl. lia. }
    rewrite Hl.
    split; [reflexivity|]. split; [reflexivity|]. split; [reflexivity|].
    split; [rewrite length_app; simpl; lia|].
    split; [apply levels_from_zero_snoc; exact Hlev|]. split.
    + destruct Hstart as (r & pr & tn & f0 & rest & Hshape & Hentry & Hr).
      exists r, pr, tn, f0,
        (rest ++ [HopLine (Z.of_nat (length (before ++ [parent_line]))) o
                    (k_name (metaspace vm (klass vm o))) f]).
      split.
      * destruct Hshape as [Hshape|[Hshape Hs]];
          [left|right; split; [|exact Hs]]; rewrite Hshape; reflexivity.
      * split; [|exact Hr]. right.
        destruct Hentry as [[-> ->]|Hc]; [exact Hget|exact Hc].
    + apply hops_linked_snoc; [exact Hlink|].
      intros before0 l1 parent n1 f1 Heq.
      apply app_inj_tail in Heq as [_ Hh]. unfold parent_line in Hh.
      injection Hh as _ <- _ <-. apply hop_field_of_spec. exact Hf'.
Qed.

End TraceInvariant.

Section IterateProofs.

Context (vm : Host) (excl : list (string * list string)).
Context (cache : list (Z * CachedOopInfo)) (fuel : nat).

Lemma trace_total (o : Z) (p : CachedOopInfo) (n : nat) :
  rooted vm cache o p n →
  ∀ (k : nat) (field : Z),
    (n < k)%nat →
    (field = NULL ∨
     k_is_instance_klass (metaspace vm (klass vm o))
       || k_is_objArray_klass (metaspace vm (klass vm o)) = true) →
    ∃ level before f,
      trace_to_root vm cache k o field p =
        Some (level, before ++ [HopLine level o (k_name (metaspace vm (klass vm o))) f]) ∧
      hop_field_of vm o field = Some f.
Proof.
  induction 1 as [o p Hroot|o p ref n Hne Hget Hkind Hrooted IH];
    intros k field Hk Hfield;
    (destruct k as [|k]; [lia|]); rewrite trace_to_root_S;
    destruct (hop_field_of_total vm o field Hfield) as [f Hf]; rewrite Hf.
  - rewrite Hroot. simpl (negb _).
    destruct (java_lang_String_is_instance vm o); eauto.
  - apply Z.eqb_neq in Hne. rewrite Hne. simpl (negb _). rewrite Hget.
    destruct (IH k o) as (level & before & f' & Ht & _); [lia|right; exact Hkind|].
    rewrite Ht. eauto.
Qed.

Lemma violations_app (l1 l2 : list log_event) :
  violations (l1 ++ l2) = violations l1 ++ violations l2.
Proof. apply omap_app. Qed.

Lemma hits_cons (table : gmap Z StaticFieldInfo) (o : Z) (p : CachedOopInfo)
    (entries : list (Z * CachedOopInfo)) :
  hits table ((o, p) :: entries) =
    match table !! o with
    | Some info => (info, o) :: hits table entries
    | None => hits table entries
    end.
Proof. unfold hits. simpl. destruct (table !! o); reflexivity. Qed.

Lemma iterate_spec entries (verf : CDSHeapVerifier) :
  traceable vm cache entries fuel →
  ∃ verf' events,
    iterate vm cache fuel entries verf = Some verf' ∧
    _table verf' = _table verf ∧
    warnings verf' = warnings verf ++ events ∧
    violations events = hits (_table verf) entries ∧
    Forall (fun e => is_Summary e = false) events ∧
    _archived_objs verf' = Nat.iter (length entries) jint_incr (_archived_objs verf) ∧
    _problems verf' = Nat.iter (length (hits (_table verf) entries)) jint_incr (_problems verf).
Proof.
  revert verf. induction entries as [|[o p] entries IH]; intros verf Htr.
  - exists verf, []. simpl. rewrite app_nil_r. repeat split; auto.
  - assert (Htr' : traceable vm cache entries fuel).
    { intros o' p' Hin. apply Htr. right. exact Hin. }
    destruct (Htr o p) as (n & Hn & Hrooted); [left|].
    destruct (trace_total o p n Hrooted fuel NULL Hn (or_introl eq_refl))
      as (level & before & f & Ht & _).
    set (lines := before ++ [HopLine level o (k_name (metaspace vm (klass vm o))) f]) in *.
    simpl iterate. unfold do_entry. rewrite Ht.
    rewrite hits_cons.
    destruct (_table verf !! o) as [info|] eqn:Hlk.
    + match goal with |- context [iterate _ _ _ entries ?v] =>
        destruct (IH v Htr') as (verf' & events & Hit & Htab & Hw & Hv & Hs & Ha & Hp)
      end.
      simpl in Htab, Hw, Hv, Ha, Hp.
      exists verf', (Problem info o lines :: events).
      split; [exact Hit|]. split; [exact Htab|].
      split; [rewrite Hw, <- app_assoc; reflexivity|].
      split; [simpl; rewrite Hv; reflexivity|].
      split; [constructor; [reflexivity|exact Hs]|].
      split; [rewrite Ha; simpl; rewrite Nat.iter_swap; reflexivity|].
      rewrite Hp. simpl. rewrite Nat.iter_swap. reflexivity.
    + match goal with |- context [iterate _ _ _ entries ?v] =>
        destruct (IH v Htr') as (verf' & events & Hit & Htab & Hw & Hv & Hs & Ha & Hp)
      end.
      simpl in Htab, Hw, Hv, Ha, Hp.
      exists verf', events.
      split; [exact Hit|]. split; [exact Htab|]. split; [exact Hw|].
      split; [exact Hv|]. split; [exact Hs|].
      split; [rewrite Ha; simpl; rewrite Nat.iter_swap; reflexivity|exact Hp].
Qed.

Lemma iter_jint_incr (n : nat) (x : Z) :
  (0 ≤ x)%Z → (x + Z.of_nat n ≤ max_jint)%Z →
  Nat.iter n jint_incr x = (x + Z.of_nat n)%Z.
Proof.
  induction n as [|n IH]; intros H0 Hmax; simpl.
  - lia.
  - rewrite IH by lia. rewrite jint_incr_small by lia. lia.
Qed.

Lemma hits_length (table : gmap Z StaticFieldInfo) (entries : list (Z * CachedOopInfo)) :
  (length (hits table entries) ≤ length entries)%nat.
Proof.
  induction entries as [|[o p] entries IH]; [reflexivity|].
  rewrite hits_cons. destruct (table !! o); simpl; lia.
Qed.

Lemma elem_of_hits (table : gmap Z StaticFieldInfo) (entries : list (Z * CachedOopInfo))
    info (v : Z) :
  (info, v) ∈ hits table entries ↔ table !! v = Some info ∧ ∃ p, (v, p) ∈ entries.
Proof.
  unfold hits. rewrite list_elem_of_omap. split.
  - intros ([o p] & Hin & Hf). simpl in Hf.
    destruct (table !! o) eqn:E; [|discriminate].
    injection Hf as -> ->. eauto.
  - intros [Hlk [p Hin]]. exists (v, p). simpl. rewrite Hlk. auto.
Qed.

(** What [verify] leaves in the log. *)
Lemma verify_spec classes :
  traceable vm cache cache fuel →
  ∃ events,
    violations events = hits (classes_do vm excl classes ∅) cache ∧
    Forall (fun e => is_Summary e = false) events ∧
    verify vm excl classes cache fuel =
      Some (if (Nat.iter (length (violations events)) jint_incr 0 >? 0)%Z
            then events ++ [Summary (Nat.iter (length cache) jint_incr 0%Z)
                              (Nat.iter (length (violations events)) jint_incr 0%Z)]
            else events).
Proof.
  intros Htr. unfold verify.
  destruct (iterate_spec cache (CDSHeapVerifier_new vm excl classes) Htr)
    as (verf' & events & Hit & Htab & Hw & Hv & Hs & Ha & Hp).
  simpl in Htab, Hw, Hv, Ha, Hp.
  exists events. split; [exact Hv|]. split; [exact Hs|].
  rewrite Hit. unfold CDSHeapVerifier_delete.
  rewrite Hw, Ha, Hp, Hv. reflexivity.
Qed.

End IterateProofs.

Section ReportProofs.

Context (vm : Host) (excl : list (string * list string)).
Context (cache : list (Z * CachedOopInfo)) (fuel : nat).

(** A successful run reports exactly the hits, whatever the traces are. *)
Lemma iterate_violations entries (verf verf' : CDSHeapVerifier) :
  iterate vm cache fuel entries verf = Some verf' →
  _table verf' = _table verf ∧
  violations (warnings verf') = violations (warnings verf) ++ hits (_table verf) entries.
Proof.
  revert verf. induction entries as [|[o p] entries IH]; intros verf H.
  - injection H as <-. rewrite app_nil_r. auto.
  - simpl in H. unfold do_entry in H. rewrite hits_cons.
    destruct (_table verf !! o) as [info|] eqn:Hlk.
    + destruct (trace_to_root vm cache fuel o NULL p) as [[level lines]|]; [|discriminate].
      apply IH in H as [Ht Hv]. simpl in Ht, Hv.
      split; [exact Ht|]. rewrite Hv, violations_app, <- app_assoc. reflexivity.
    + apply IH in H as [Ht Hv]. simpl in Ht, Hv. auto.
Qed.

Lemma violations_no_summary (events : list log_event) a b :
  violations (events ++ [Summary a b]) = violations events.
Proof. rewrite violations_app. simpl. apply app_nil_r. Qed.

Lemma verify_violations classes log :
  verify vm excl classes cache fuel = Some log →
  violations log = hits (classes_do vm excl classes ∅) cache.
Proof.
  unfold verify. intros H.
  destruct (iterate vm cache fuel cache (CDSHeapVerifier_new vm excl classes))
    as [verf'|] eqn:Hit; [|discriminate].
  injection H as <-. apply iterate_violations in Hit as [_ Hv]. simpl in Hv.
  unfold CDSHeapVerifier_delete.
  destruct (_problems verf' >? 0)%Z; [rewrite violations_no_summary|]; exact Hv.
Qed.

(** Every problem of a successful run is a hit of the table on an entry,
    printed with the trace of that entry. *)
Lemma iterate_problems entries (verf verf' : CDSHeapVerifier) :
  iterate vm cache fuel entries verf = Some verf' →
  ∀ info (o : Z) lines,
    Problem info o lines ∈ warnings verf' →
    Problem info o lines ∈ warnings verf ∨
    ∃ p level, (o, p) ∈ entries ∧ _table verf !! o = Some info ∧
               trace_to_root vm cache fuel o NULL p = Some (level, lines).
Proof.
  revert verf. induction entries as [|[o p] entries IH]; intros verf H info o' lines Hin.
  - injection H as <-. left. exact Hin.
  - simpl in H. unfold do_entry in H.
    destruct (_table verf !! o) as [info0|] eqn:Hlk.
    + destruct (trace_to_root vm cache fuel o NULL p) as [[level lines0]|] eqn:Ht;
        [|discriminate].
      pose proof (iterate_violations _ _ _ H) as [Htab _].
      destruct (IH _ H _ _ _ Hin) as [Hold|(p' & level' & Hp & Hl & Ht')]; simpl in *.
      * apply elem_of_app in Hold as [Hold|Hnew]; [left; exact Hold|].
        apply list_elem_of_singleton in Hnew. injection Hnew as -> -> ->.
        right. exists p, level. split; [left|]. auto.
      * right. exists p', level'. split; [right; exact Hp|]. auto.
    + destruct (IH _ H _ _ _ Hin) as [Hold|(p' & level' & Hp & Hl & Ht')]; simpl in *.
      * left. exact Hold.
      * right. exists p', level'. split; [right; exact Hp|]. auto.
Qed.

Lemma verify_problems classes log info (o : Z) lines :
  verify vm excl classes cache fuel = Some log →
  Problem info o lines ∈ log →
  ∃ p level, (o, p) ∈ cache ∧ classes_do vm excl classes ∅ !! o = Some info ∧
             trace_to_root vm cache fuel o NULL p = Some (level, lines).
Proof.
  unfold verify. intros H Hin.
  destruct (iterate vm cache fuel cache (CDSHeapVerifier_new vm excl classes))
    as [verf'|] eqn:Hit; [|discriminate].
  injection H as <-.
  assert (Hin' : Problem info o lines ∈ warnings verf').
  { unfold CDSHeapVerifier_delete in Hin.
    destruct (_problems verf' >? 0)%Z; [|exact Hin].
    apply elem_of_app in Hin as [Hin|Hin]; [exact Hin|].
    apply list_elem_of_singleton in Hin. discriminate. }
  destruct (iterate_problems _ _ _ Hit _ _ _ Hin') as [Hold|Hnew].
  - simpl in Hold. inversion Hold.
  - exact Hnew.
Qed.

Lemma hits_about_none (table : gmap Z StaticFieldInfo) (entries : list (Z * CachedOopInfo))
    (v : Z) :
  v ∉ entries.*1 → List.filter (about v) (hits table entries) = [].
Proof.
  induction entries as [|[o p] entries IH]; intros Hn; [reflexivity|].
  rewrite hits_cons. rewrite fmap_cons, not_elem_of_cons in Hn. destruct Hn as [Hne Hn].
  simpl in Hne.
  destruct (table !! o); [|auto].
  simpl. unfold about at 1. simpl.
  destruct (o =? v)%Z eqn:E; [apply Z.eqb_eq in E; congruence|auto].
Qed.

Lemma hits_about_one (table : gmap Z StaticFieldInfo) (entries : list (Z * CachedOopInfo))
    (v : Z) p info :
  NoDup entries.*1 → (v, p) ∈ entries → table !! v = Some info →
  List.filter (about v) (hits table entries) = [(info, v)].
Proof.
  induction entries as [|[o q] entries IH]; intros Hnd Hin Hlk; [inversion Hin|].
  rewrite fmap_cons in Hnd. apply NoDup_cons in Hnd as [Hfresh Hnd]. simpl in Hfresh.
  rewrite hits_cons.
  apply elem_of_cons in Hin as [Heq|Hin].
  - injection Heq as <- <-. rewrite Hlk. simpl. unfold about at 1. simpl.
    rewrite Z.eqb_refl. f_equal. apply hits_about_none. exact Hfresh.
  - assert (Hne : o ≠ v).
    { intros ->. apply Hfresh. apply list_elem_of_fmap. exists (v, p). auto. }
    apply Z.eqb_neq in Hne.
    destruct (table !! o); [|auto].
    simpl. unfold about at 1. simpl. rewrite Hne. auto.
Qed.

Lemma hits_about_le (table : gmap Z StaticFieldInfo) (entries : list (Z * CachedOopInfo))
    (v : Z) :
  NoDup entries.*1 → (length (List.filter (about v) (hits table entries)) ≤ 1)%nat.
Proof.
  intros Hnd.
  destruct (decide (v ∈ entries.*1)) as [Hin|Hn].
  - apply list_elem_of_fmap in Hin as ([o p] & -> & Hin). simpl.
    destruct (table !! o) as [info|] eqn:Hlk.
    + erewrite hits_about_one by eauto. simpl. lia.
    + assert (Hnone : ∀ x, x ∈ hits table entries → about o x = false).
      { intros [info v] Hx. apply elem_of_hits in Hx as [Hx _].
        unfold about. simpl. apply Z.eqb_neq. intros ->. congruence. }
      induction (hits table entries) as [|x l IHl]; [simpl; lia|].
      simpl. rewrite (Hnone x) by left. apply IHl.
      intros y Hy. apply Hnone. right. exact Hy.
  - rewrite hits_about_none by exact Hn. simpl. lia.
Qed.

End ReportProofs.

Section SkipProofs.

Context (vm : Host) (excl : list (string * list string)).

(** What holds of a field whose value [do_klass] puts in the table. *)
Lemma do_klass_field_Indexed_inv (c : KlassPtr) (fd : fieldDescriptor) :
  do_klass_field vm excl c fd = FieldOutcome Indexed →
  static_object_field vm c fd ∧
  k_is_subgraph_root_class (metaspace vm c) = false ∧
  is_excluded vm excl c fd = false ∧
  static_value vm c fd ≠ NULL ∧
  rule_matches vm excl c fd Rule4 = false ∧
  rule_matches vm excl c fd Rule5 = false ∧
  rule_matches vm excl c fd Rule6 = false.
Proof.
  unfold do_klass_field, scan_field, static_object_field, is_excluded, rule_matches.
  fold (static_value vm c fd).
  destruct (k_is_instance_klass (metaspace vm c)); [|discriminate].
  destruct (k_is_subgraph_root_class (metaspace vm c)); [discriminate|].
  destruct (fd_is_static fd); [|discriminate].
  destruct (BasicType_eqb (fd_field_type fd) T_OBJECT) eqn:Et; [|discriminate].
  apply BasicType_eqb_eq in Et.
  destruct (static_value vm c fd =? NULL)%Z eqn:En; simpl negb; cbv iota; [discriminate|].
  apply Z.eqb_neq in En.
  destruct (match find_exclusion excl (k_name (metaspace vm c)) with
            | Some names => excluded_in names (fd_name fd)
            | None => false
            end); [discriminate|].
  destruct (fd_is_final fd && java_lang_String_is_instance vm (static_value vm c fd)
            && fd_has_initial_value fd); [discriminate|].
  destruct (fd_is_final fd && java_lang_Class_is_instance vm (static_value vm c fd));
    [discriminate|].
  destruct (k_has_archived_enum_objs (metaspace vm (klass vm (static_value vm c fd))));
    [discriminate|].
  intros _. repeat split; auto.
Qed.

Lemma index_field_skip (c : KlassPtr) (fd : fieldDescriptor) (table : gmap Z StaticFieldInfo) :
  do_klass_field vm excl c fd ≠ FieldOutcome Indexed →
  index_field vm excl c table fd = table.
Proof.
  unfold index_field. intros H.
  destruct (do_klass_field vm excl c fd) as [| |o]; try reflexivity.
  destruct o; try reflexivity. contradiction.
Qed.

(** A reported object is the value of a field that [do_klass] indexed. *)
Lemma reported_inv classes (cache : list (Z * CachedOopInfo)) (fuel : nat) log info (v : Z) :
  verify vm excl classes cache fuel = Some log →
  (info, v) ∈ violations log →
  ∃ c fd, c ∈ classes ∧ fd ∈ k_fields (metaspace vm c) ∧
          indexes vm excl c fd v ∧ info = origin c fd.
Proof.
  intros Hlog Hin. rewrite (verify_violations _ _ _ _ _ _ Hlog) in Hin.
  apply elem_of_hits in Hin as [Hlk _].
  apply classes_do_inv in Hlk as [Hlk|Hlk]; [|exact Hlk].
  rewrite lookup_empty in Hlk. discriminate.
Qed.

End SkipProofs.

(** * The claims *)

(** C2 (indexing condition), as amended.  For every static object-typed field
    of an instance class, [do_klass] enters the field's current value in the
    table if and only if the class is not a root class, the field's name is
    not exempted for the class, the value is non-null, the field is not a
    final string with an initial value, the field is not a final field
    holding a mirror, and the class of the value has no archived enum
    objects; and the rule at which the code leaves a skipped field is the
    first that matches in the order 1 (root class), 3 (null), 2 (exclusion),
    4, 5, 6. *)
Theorem indexing_condition (vm : Host) (excl : list (string * list string))
    (c : KlassPtr) (fd : fieldDescriptor) :
  static_object_field vm c fd →
  (do_klass_field vm excl c fd = FieldOutcome Indexed ↔
     k_is_subgraph_root_class (metaspace vm c) = false ∧
     is_excluded vm excl c fd = false ∧
     static_value vm c fd ≠ NULL ∧
     fd_is_final fd && java_lang_String_is_instance vm (static_value vm c fd)
       && fd_has_initial_value fd = false ∧
     fd_is_final fd && java_lang_Class_is_instance vm (static_value vm c fd) = false ∧
     k_has_archived_enum_objs (metaspace vm (klass vm (static_value vm c fd))) = false) ∧
  rule_of_outcome (do_klass_field vm excl c fd) = first_rule vm excl code_order c fd.
Proof.
  intros (Hi & Hs & Ht).
  unfold do_klass_field, scan_field, first_rule, code_order, rule_matches, is_excluded.
  rewrite Hi, Hs, Ht. simpl BasicType_eqb. simpl List.find.
  fold (static_value vm c fd).
  destruct (k_is_subgraph_root_class (metaspace vm c)).
  { split; [|reflexivity]. split; [discriminate|]. intros (H & _). discriminate. }
  destruct (static_value vm c fd =? NULL)%Z eqn:En; simpl negb; cbv iota.
  { apply Z.eqb_eq in En. split; [|reflexivity].
    split; [discriminate|]. intros (_ & _ & H & _). contradiction. }
  apply Z.eqb_neq in En.
  destruct (match find_exclusion excl (k_name (metaspace vm c)) with
            | Some names => excluded_in names (fd_name fd)
            | None => false
            end).
  { split; [|reflexivity]. split; [discriminate|]. intros (_ & H & _). discriminate. }
  destruct (fd_is_final fd && java_lang_String_is_instance vm (static_value vm c fd)
            && fd_has_initial_value fd).
  { split; [|reflexivity]. split; [discriminate|]. intros (_ & _ & _ & H & _). discriminate. }
  destruct (fd_is_final fd && java_lang_Class_is_instance vm (static_value vm c fd)).
  { split; [|reflexivity].
    split; [discriminate|]. intros (_ & _ & _ & _ & H & _). discriminate. }
  destruct (k_has_archived_enum_objs (metaspace vm (klass vm (static_value vm c fd)))).
  { split; [|reflexivity].
    split; [discriminate|]. intros (_ & _ & _ & _ & _ & H). discriminate. }
  split; [|reflexivity]. split; [|reflexivity]. intros _. repeat split; auto.
Qed.

Lemma indexing_condition_witness :
  static_object_field ex_vm ex_Foo (mk_field "archivedFoo" true T_OBJECT 8 false false) ∧
  do_klass_field ex_vm exclusion_table ex_Foo
    (mk_field "archivedFoo" true T_OBJECT 8 false false) = FieldOutcome Indexed.
Proof.
  assert (Hs : static_object_field ex_vm ex_Foo
                 (mk_field "archivedFoo" true T_OBJECT 8 false false)).
  { repeat split. }
  split; [exact Hs|].
  apply (indexing_condition ex_vm exclusion_table ex_Foo _ Hs).
  vm_compute. repeat split; discriminate.
Defined.

(** C2, as stated, fails: java/lang/ClassLoader.scl is exempted and null;
    the code leaves it at the null test (rule 3), while the first rule that
    matches in the order 1, 2, 3, 4, 5, 6 is the exclusion (rule 2). *)
Lemma indexing_order_counterexample :
  ¬ indexing_condition_as_stated ex_vm exclusion_table [ex_ClassLoader].
Proof.
  intros H.
  destruct (H ex_ClassLoader (mk_field "scl" true T_OBJECT 8 false false)) as [_ Hr].
  - left.
  - vm_compute. left.
  - repeat split.
  - vm_compute in Hr. discriminate.
Qed.

(** C1 (completeness), as amended.  Let f be a static object-typed field of
    a class C among the loaded classes, C not a root class, f not exempted
    for C, its value v non-null and in the cache, none of the rules 4-6
    applying, and let f be the last field in scan order whose value v is
    entered in the table (no later field of C and no field of a later class
    is indexed with v).  Then, the cache holding each object once and every
    entry having a referrer chain within the bound, [verify] reports exactly
    one violation about v, and it names (C, f). *)
Theorem completeness_last_field (vm : Host) (excl : list (string * list string))
    (cs1 cs2 : list KlassPtr) (c : KlassPtr) (fs1 fs2 : list fieldDescriptor)
    (fd : fieldDescriptor) (p : CachedOopInfo)
    (cache : list (oop * CachedOopInfo)) (fuel : nat) :
  k_fields (metaspace vm c) = fs1 ++ fd :: fs2 →
  static_object_field vm c fd →
  k_is_subgraph_root_class (metaspace vm c) = false →
  is_excluded vm excl c fd = false →
  static_value vm c fd ≠ NULL →
  (static_value vm c fd, p) ∈ cache →
  rule_matches vm excl c fd Rule4 = false →
  rule_matches vm excl c fd Rule5 = false →
  rule_matches vm excl c fd Rule6 = false →
  (∀ fd', fd' ∈ fs2 → ¬ indexes vm excl c fd' (static_value vm c fd)) →
  classes_miss vm excl cs2 (static_value vm c fd) →
  NoDup cache.*1 →
  traceable vm cache cache fuel →
  ∃ log,
    verify vm excl (cs1 ++ c :: cs2) cache fuel = Some log ∧
    List.filter (about (static_value vm c fd)) (violations log)
      = [(origin c fd, static_value vm c fd)].
Proof.
  intros Hf Hs Hroot Hex Hnull Hin H4 H5 H6 Hlater Hmiss Hnd Htr.
  assert (Hidx : indexes vm excl c fd (static_value vm c fd)).
  { split; [|reflexivity].
    destruct Hs as (Hi & Hst & Hty).
    unfold do_klass_field, scan_field. rewrite Hi, Hroot, Hst, Hty. simpl BasicType_eqb.
    fold (static_value vm c fd).
    apply Z.eqb_neq in Hnull. rewrite Hnull. simpl negb. cbv iota.
    unfold is_excluded in Hex. rewrite Hex.
    unfold rule_matches in H4, H5, H6. rewrite H4, H5, H6. reflexivity. }
  destruct (verify_spec vm excl cache fuel (cs1 ++ c :: cs2) Htr)
    as (events & Hv & _ & Hlog).
  eexists. split; [exact Hlog|].
  assert (Hvl : ∀ a b, violations (if (Nat.iter (length (violations events)) jint_incr 0 >? 0)%Z
                                   then events ++ [Summary a b] else events)
                       = violations events).
  { intros a b. destruct (_ >? _)%Z; [apply violations_no_summary|reflexivity]. }
  rewrite Hvl, Hv.
  eapply hits_about_one; [exact Hnd|exact Hin|].
  eapply classes_do_last; eauto.
Qed.

Lemma completeness_last_field_witness :
  ∃ log,
    verify ex_vm exclusion_table [ex_Foo; ex_Bar] [(ex_O, root_entry)] 5 = Some log ∧
    List.filter (about ex_O) (violations log)
      = [({| _holder := ex_Bar; _name := "bar" |}, ex_O)].
Proof.
  apply (completeness_last_field ex_vm exclusion_table [ex_Foo] [] ex_Bar [] []
           (mk_field "bar" true T_OBJECT 8 true false) root_entry
           [(ex_O, root_entry)] 5).
  - reflexivity.
  - repeat split.
  - reflexivity.
  - reflexivity.
  - vm_compute. discriminate.
  - left.
  - reflexivity.
  - reflexivity.
  - reflexivity.
  - intros fd' H. inversion H.
  - intros c' fd' H. inversion H.
  - vm_compute. apply NoDup_cons. split; [intros H; inversion H|apply NoDup_nil_2].
  - intros o p H. apply list_elem_of_singleton in H. injection H as -> ->.
    exists 0%nat. split; [lia|]. apply rooted_root. reflexivity.
Defined.

(** C1, as stated, fails: Foo.archivedFoo and Bar.bar hold the same object,
    which is in the cache; every premise holds for Foo.archivedFoo, but the
    only violation names Bar.bar, the field scanned last. *)
Lemma completeness_counterexample :
  ¬ completeness_as_stated ex_vm exclusion_table [ex_Foo; ex_Bar] [(ex_O, root_entry)] 5.
Proof.
  intros H.
  destruct (H ex_Foo (mk_field "archivedFoo" true T_OBJECT 8 false false) root_entry)
    as (log & Hlog & Hlen); try reflexivity.
  - left.
  - vm_compute. left.
  - repeat split.
  - left.
  - vm_compute in Hlog. injection Hlog as <-. vm_compute in Hlen. discriminate.
Qed.

(** C3 (summary reporting), as amended.  When [verify] runs over a cache of
    at most [max_jint] entries, each with a referrer chain within the bound,
    and reports at least one violation, the last line of the log is the
    summary, with N the number of entries of the cache and M the number of
    violations reported, and no other line is a summary; when it reports no
    violation, the log has no summary (it is empty). *)
Theorem summary_when_problems (vm : Host) (excl : list (string * list string))
    (classes : list KlassPtr) (cache : list (oop * CachedOopInfo)) (fuel : nat) :
  traceable vm cache cache fuel →
  (Z.of_nat (length cache) ≤ max_jint)%Z →
  ∃ log,
    verify vm excl classes cache fuel = Some log ∧
    (violations log ≠ [] →
       ∃ problems,
         log = problems ++ [Summary (Z.of_nat (length cache))
                              (Z.of_nat (length (violations log)))] ∧
         Forall (fun e => is_Summary e = false) problems) ∧
    (violations log = [] → log = []).
Proof.
  intros Htr Hmax.
  destruct (verify_spec vm excl cache fuel classes Htr) as (events & Hv & Hs & Hlog).
  pose proof (hits_length (classes_do vm excl classes ∅) cache) as Hle.
  rewrite <- Hv in Hle.
  rewrite !iter_jint_incr in Hlog by lia.
  rewrite !Z.add_0_l in Hlog.
  eexists. split; [exact Hlog|].
  destruct (violations events) as [|x l] eqn:Ev.
  - simpl. split; [intros H; congruence|]. intros _.
    destruct events as [|e events]; [reflexivity|].
    apply Forall_cons in Hs as [He _].
    destruct e; [simpl in Ev; discriminate|discriminate].
  - replace (Z.of_nat (length (x :: l)) >? 0)%Z with true
      by (symmetry; apply Z.gtb_lt; simpl length; lia).
    rewrite violations_no_summary, Ev.
    split; [|intros H; discriminate].
    intros _. exists events. auto.
Qed.

Lemma summary_when_problems_witness :
  ∃ log,
    verify ex_vm exclusion_table [ex_Foo] [(ex_O, root_entry); (ex_P, root_entry)] 5
      = Some log ∧
    (violations log ≠ [] →
       ∃ problems,
         log = problems ++ [Summary 2 (Z.of_nat (length (violations log)))] ∧
         Forall (fun e => is_Summary e = false) problems) ∧
    (violations log = [] → log = []).
Proof.
  apply (summary_when_problems ex_vm exclusion_table [ex_Foo]
           [(ex_O, root_entry); (ex_P, root_entry)] 5).
  - intros o p H. exists 0%nat. split; [lia|]. apply rooted_root.
    apply elem_of_cons in H as [H|H]; [injection H as -> ->; reflexivity|].
    apply list_elem_of_singleton in H. injection H as -> ->. reflexivity.
  - vm_compute. discriminate.
Defined.

(** C3, as stated, fails: with System.bootLayer exempted, the run over a
    cache holding its value finds no problem and logs nothing, so no summary
    reaches the log. *)
Lemma summary_counterexample :
  ¬ summary_as_stated ex_vm exclusion_table [ex_System] [(ex_P, root_entry)] 5.
Proof.
  intros H. specialize (H [] eq_refl). inversion H.
Qed.

(** C4 (no false positive for literal strings), as amended.  A static field
    that is final, holds a string instance and has an initial value is never
    indexed: scanning it leaves the table as it is.  Its value is reported
    only when another static field, one that passes every skip rule (so not
    a final field with an initial value), holds the identical object, and
    the violation then names that other field. *)
Theorem literal_string_not_indexed (vm : Host) (excl : list (string * list string))
    (classes : list KlassPtr) (cache : list (oop * CachedOopInfo)) (fuel : nat)
    (c : KlassPtr) (fd : fieldDescriptor) :
  static_object_field vm c fd →
  fd_is_final fd = true →
  java_lang_String_is_instance vm (static_value vm c fd) = true →
  fd_has_initial_value fd = true →
  do_klass_field vm excl c fd ≠ FieldOutcome Indexed ∧
  (∀ table, index_field vm excl c table fd = table) ∧
  ∀ log info,
    verify vm excl classes cache fuel = Some log →
    (info, static_value vm c fd) ∈ violations log →
    ∃ c' fd',
      c' ∈ classes ∧ fd' ∈ k_fields (metaspace vm c') ∧
      indexes vm excl c' fd' (static_value vm c fd) ∧
      info = origin c' fd' ∧
      fd_is_final fd' && fd_has_initial_value fd' = false.
Proof.
  intros Hs Hfinal Hstr Hinit.
  assert (Hskip : do_klass_field vm excl c fd ≠ FieldOutcome Indexed).
  { intros H. apply do_klass_field_Indexed_inv in H as (_ & _ & _ & _ & H4 & _).
    unfold rule_matches in H4. rewrite Hfinal, Hstr, Hinit in H4. discriminate. }
  split; [exact Hskip|]. split; [intros table; apply index_field_skip; exact Hskip|].
  intros log info Hlog Hin.
  destruct (reported_inv vm excl classes cache fuel log info _ Hlog Hin)
    as (c' & fd' & Hc & Hfd & Hidx & Hinfo).
  exists c', fd'. repeat (split; [assumption|]).
  destruct Hidx as [Hidx Hval].
  apply do_klass_field_Indexed_inv in Hidx as (_ & _ & _ & _ & H4 & _).
  unfold rule_matches in H4. rewrite Hval, Hstr in H4.
  destruct (fd_is_final fd'), (fd_has_initial_value fd'); auto.
Qed.

Lemma literal_string_not_indexed_witness :
  do_klass_field ex_vm exclusion_table ex_Lit (mk_field "S" true T_OBJECT 8 true true)
    ≠ FieldOutcome Indexed.
Proof.
  apply (literal_string_not_indexed ex_vm exclusion_table [ex_Lit] [(ex_S, root_entry)] 5
           ex_Lit (mk_field "S" true T_OBJECT 8 true true)).
  - repeat split.
  - reflexivity.
  - reflexivity.
  - reflexivity.
Defined.

(** C4, as stated, fails: Lit.S is a final string with an initial value, and
    the non-final Alias.T holds the same string; the string is in the cache
    and is reported, under the name of Alias.T. *)
Lemma literal_string_counterexample :
  ¬ literal_string_as_stated ex_vm exclusion_table [ex_Lit; ex_Alias]
      [(ex_S, root_entry)] 5.
Proof.
  intros H.
  destruct (H ex_Lit (mk_field "S" true T_OBJECT 8 true true)) as [_ Hrep];
    try reflexivity.
  - left.
  - vm_compute. left.
  - repeat split.
  - eapply (Hrep _ {| _holder := ex_Alias; _name := "T" |}); [reflexivity|].
    vm_compute. left.
Qed.

(** C5 (no false positive for enum classes).  A static field whose current
    value belongs to a class with archived enum objects is skipped by the
    scan, so such a value is never in the table and never reported; in
    scenario C (class E with an archived instance, E.CONST holding Q, Q in
    the cache) the run reports no problem. *)
Theorem enum_values_never_reported :
  (∀ (vm : Host) (excl : list (string * list string)) (classes : list KlassPtr)
     (cache : list (oop * CachedOopInfo)) (fuel : nat) (v : oop),
     k_has_archived_enum_objs (metaspace vm (klass vm v)) = true →
     (∀ c fd, static_value vm c fd = v →
              do_klass_field vm excl c fd ≠ FieldOutcome Indexed) ∧
     classes_do vm excl classes ∅ !! v = None ∧
     (∀ log info, verify vm excl classes cache fuel = Some log →
                  (info, v) ∉ violations log)) ∧
  static_value ex_vm ex_E (mk_field "CONST" true T_OBJECT 8 true false) = ex_Q ∧
  verify ex_vm exclusion_table [ex_E] [(ex_Q, root_entry)] 5 = Some [].
Proof.
  split; [|split; reflexivity].
  intros vm excl classes cache fuel v Henum.
  assert (Hskip : ∀ c fd, static_value vm c fd = v →
                          do_klass_field vm excl c fd ≠ FieldOutcome Indexed).
  { intros c fd Hv H. apply do_klass_field_Indexed_inv in H as (_ & _ & _ & _ & _ & _ & H6).
    unfold rule_matches in H6. rewrite Hv, Henum in H6. discriminate. }
  split; [exact Hskip|].
  assert (Hnone : classes_do vm excl classes ∅ !! v = None).
  { rewrite classes_do_miss; [apply lookup_empty|].
    intros c fd _ _ [Hidx Hv]. exact (Hskip c fd Hv Hidx). }
  split; [exact Hnone|].
  intros log info Hlog Hin.
  rewrite (verify_violations _ _ _ _ _ _ Hlog) in Hin.
  apply elem_of_hits in Hin as [Hlk _]. congruence.
Qed.

Lemma enum_values_never_reported_witness :
  classes_do ex_vm exclusion_table [ex_E; ex_Foo] ∅ !! ex_Q = None.
Proof.
  apply (proj1 enum_values_never_reported ex_vm exclusion_table [ex_E; ex_Foo]
           [(ex_Q, root_entry)] 5 ex_Q).
  reflexivity.
Defined.

(** C9 (array-typed static fields), as amended.  A static field whose type
    is T_ARRAY is never indexed: scanning it leaves the table as it is.  Its
    value is reported only when a static field of type T_OBJECT that passes
    every skip rule holds the identical object, and the violation then names
    that field.  The parent re-scan of the tracer, in contrast, stops at the
    first instance field of type T_OBJECT or T_ARRAY that holds the child. *)
Theorem array_static_field_not_indexed (vm : Host) (excl : list (string * list string))
    (classes : list KlassPtr) (cache : list (oop * CachedOopInfo)) (fuel : nat)
    (c : KlassPtr) (fd : fieldDescriptor) :
  fd_field_type fd = T_ARRAY →
  do_klass_field vm excl c fd ≠ FieldOutcome Indexed ∧
  (∀ table, index_field vm excl c table fd = table) ∧
  (∀ log info,
     verify vm excl classes cache fuel = Some log →
     (info, static_value vm c fd) ∈ violations log →
     ∃ c' fd',
       c' ∈ classes ∧ fd' ∈ k_fields (metaspace vm c') ∧
       indexes vm excl c' fd' (static_value vm c fd) ∧
       info = origin c' fd' ∧ fd_field_type fd' = T_OBJECT) ∧
  (∀ parent child fd' rest,
     fd_is_static fd' = false →
     fd_field_type fd' = T_OBJECT ∨ fd_field_type fd' = T_ARRAY →
     obj_field vm parent (fd_offset fd') = child →
     find_field vm parent child (fd' :: rest) = FieldAt (fd_name fd') (fd_offset fd')).
Proof.
  intros Hty.
  assert (Hskip : do_klass_field vm excl c fd ≠ FieldOutcome Indexed).
  { intros H. apply do_klass_field_Indexed_inv in H as ((_ & _ & H) & _). congruence. }
  split; [exact Hskip|]. split; [intros table; apply index_field_skip; exact Hskip|].
  split.
  - intros log info Hlog Hin.
    destruct (reported_inv vm excl classes cache fuel log info _ Hlog Hin)
      as (c' & fd' & Hc & Hfd & Hidx & Hinfo).
    exists c', fd'. repeat (split; [assumption|]).
    destruct Hidx as [Hidx _].
    apply do_klass_field_Indexed_inv in Hidx as ((_ & _ & H) & _). exact H.
  - intros parent child fd' rest Hst Hty' Hval.
    rewrite find_field_step.
    replace (negb (fd_is_static fd')
             && (BasicType_eqb (fd_field_type fd') T_OBJECT
                 || BasicType_eqb (fd_field_type fd') T_ARRAY)
             && (obj_field vm parent (fd_offset fd') =? child)%Z) with true; [reflexivity|].
    symmetry. apply field_matches_dec. repeat split; auto.
Qed.

Lemma array_static_field_not_indexed_witness :
  do_klass_field ex_vm exclusion_table ex_Alias (mk_field "ARR" true T_ARRAY 16 false false)
    ≠ FieldOutcome Indexed.
Proof.
  apply (array_static_field_not_indexed ex_vm exclusion_table [ex_Alias]
           [(ex_A, root_entry)] 5 ex_Alias (mk_field "ARR" true T_ARRAY 16 false false)).
  reflexivity.
Defined.

(** C9, as stated, fails: Alias.ARR, of type T_ARRAY, and Alias.OBJ, of type
    T_OBJECT, hold the same array; the array is in the cache and is reported,
    under the name of Alias.OBJ. *)
Lemma array_field_counterexample :
  ¬ array_field_as_stated ex_vm exclusion_table [ex_Alias] [(ex_A, root_entry)] 5.
Proof.
  intros H.
  destruct (H ex_Alias (mk_field "ARR" true T_ARRAY 16 false false)) as [_ Hrep];
    try reflexivity.
  - left.
  - vm_compute. right. left.
  - eapply (Hrep _ {| _holder := ex_Alias; _name := "OBJ" |}); [reflexivity|].
    vm_compute. left.
Qed.

(** C10 (tracing is total on a non-matching parent).  When no object-valued
    field of an instance parent, or no element of an array parent, is the
    child, the hop of the parent is still printed, with its address and type
    and with no field name or index; the call returns, and the trace of the
    child goes on with the hop of the child. *)
Theorem trace_total_on_no_match (vm : Host) (cache : list (oop * CachedOopInfo))
    (fuel : nat) (parent child : oop) (p : CachedOopInfo) (n : nat) :
  rooted vm cache parent p n → (n < fuel)%nat →
  child ≠ NULL → no_match vm parent child →
  ∃ level before,
    trace_to_root vm cache fuel parent child p =
      Some (level,
            before ++ [HopLine level parent (k_name (metaspace vm (klass vm parent))) NoField]) ∧
    ∀ pc, _referrer pc = parent → parent ≠ NULL → cache_get cache parent = Some p →
      trace_to_root vm cache (S fuel) child NULL pc =
        Some (jint_incr level,
              before ++ [HopLine level parent (k_name (metaspace vm (klass vm parent))) NoField;
                         HopLine (jint_incr level) child
                           (k_name (metaspace vm (klass vm child))) NoField]).
Proof.
  intros Hrooted Hfuel Hchild Hno.
  assert (Hkind : k_is_instance_klass (metaspace vm (klass vm parent))
                  || k_is_objArray_klass (metaspace vm (klass vm parent)) = true).
  { destruct Hno as [[-> _]|(_ & -> & _)]; [reflexivity|apply orb_true_r]. }
  destruct (trace_total vm cache parent p n Hrooted fuel child Hfuel (or_intror Hkind))
    as (level & before & f & Ht & Hf).
  rewrite (hop_field_of_no_match vm parent child Hno) in Hf. injection Hf as <-.
  exists level, before. split; [exact Ht|].
  intros pc Hpc Hparent Hget.
  rewrite trace_to_root_S, Hpc.
  apply Z.eqb_neq in Hparent. rewrite Hparent. simpl (negb _).
  rewrite Hget, Ht. unfold hop_field_of. rewrite Z.eqb_refl. simpl (negb _). cbv iota.
  rewrite <- app_assoc. reflexivity.
Qed.

Lemma trace_total_on_no_match_witness :
  ∃ level before,
    trace_to_root ex_vm [(ex_O, entry_from ex_X); (ex_X, root_entry)] 5 ex_X ex_O root_entry =
      Some (level, before ++ [HopLine level ex_X "Foo" NoField]) ∧
    ∀ pc, _referrer pc = ex_X → ex_X ≠ NULL →
      cache_get [(ex_O, entry_from ex_X); (ex_X, root_entry)] ex_X = Some root_entry →
      trace_to_root ex_vm [(ex_O, entry_from ex_X); (ex_X, root_entry)] 6 ex_O NULL pc =
        Some (jint_incr level,
              before ++ [HopLine level ex_X "Foo" NoField;
                         HopLine (jint_incr level) ex_O "Foo" NoField]).
Proof.
  apply (trace_total_on_no_match ex_vm [(ex_O, entry_from ex_X); (ex_X, root_entry)] 5
           ex_X ex_O root_entry 0).
  - apply rooted_root. reflexivity.
  - lia.
  - vm_compute. discriminate.
  - left. split; [reflexivity|].
    intros fd Hin [[Hst Hty] Hval]. vm_compute in Hin.
    repeat (apply elem_of_cons in Hin as [->|Hin]; [vm_compute in Hst, Hty, Hval;
      first [discriminate | destruct Hty; discriminate]|]).
    inversion Hin.
Defined.

(** C6 (trace correctness).  For every violation that [verify] reports on
    an object o, the printed trace is root-first with levels 0, 1, 2, ...;
    its first hop is a root of the cache (an object whose entry has no
    referrer), preceded by the string table line when that root is a string;
    its last line is the hop of o itself; and for every two consecutive hops,
    what is printed on the parent is the first object-valued field, or the
    first element, of the parent that is the child.  And [verify] does
    return when every entry of the cache has a referrer chain within the
    bound on the depth. *)
Theorem trace_correctness (vm : Host) (excl : list (string * list string))
    (classes : list KlassPtr) (cache : list (oop * CachedOopInfo)) (fuel : nat) :
  (Z.of_nat fuel ≤ max_jint)%Z →
  (∀ log info o lines,
     verify vm excl classes cache fuel = Some log →
     Problem info o lines ∈ log →
     ∃ p level,
       (o, p) ∈ cache ∧
       trace_to_root vm cache fuel o NULL p = Some (level, lines) ∧
       levels_from_zero lines ∧
       starts_at_root vm cache o p lines ∧
       ends_at vm o level lines ∧
       hops_linked vm lines) ∧
  (traceable vm cache cache fuel →
   ∃ log, verify vm excl classes cache fuel = Some log).
Proof.
  intros Hmax. split.
  - intros log info o lines Hlog Hin.
    destruct (verify_problems vm excl cache fuel classes _ info o lines Hlog Hin)
      as (p & level & Hp & _ & Ht).
    exists p, level. split; [exact Hp|]. split; [exact Ht|].
    destruct (trace_inv vm cache fuel Hmax _ _ _ _ _ Ht) as
      (before & f & -> & _ & Hf & _ & Hlev & Hstart & Hlink).
    split; [exact Hlev|]. split; [exact Hstart|]. split; [|exact Hlink].
    exists before. unfold hop_field_of in Hf. rewrite Z.eqb_refl in Hf.
    injection Hf as <-. reflexivity.
  - intros Htr.
    destruct (verify_spec vm excl cache fuel classes Htr) as (events & _ & _ & Hlog).
    eexists. exact Hlog.
Qed.

Lemma trace_correctness_witness :
  ∃ p level,
    (ex_O, p) ∈ [(ex_O, entry_from ex_A); (ex_A, entry_from ex_R); (ex_R, root_entry)] ∧
    trace_to_root ex_vm
      [(ex_O, entry_from ex_A); (ex_A, entry_from ex_R); (ex_R, root_entry)] 5 ex_O NULL p
      = Some (level,
              [HopLine 0 ex_R "Foo" (FieldAt "bar" 16);
               HopLine 1 ex_A "[Ljava/lang/Object;" (ElemAt 1);
               HopLine 2 ex_O "Foo" NoField]) ∧
    levels_from_zero
      [HopLine 0 ex_R "Foo" (FieldAt "bar" 16);
       HopLine 1 ex_A "[Ljava/lang/Object;" (ElemAt 1);
       HopLine 2 ex_O "Foo" NoField] ∧
    starts_at_root ex_vm
      [(ex_O, entry_from ex_A); (ex_A, entry_from ex_R); (ex_R, root_entry)] ex_O p
      [HopLine 0 ex_R "Foo" (FieldAt "bar" 16);
       HopLine 1 ex_A "[Ljava/lang/Object;" (ElemAt 1);
       HopLine 2 ex_O "Foo" NoField] ∧
    ends_at ex_vm ex_O level
      [HopLine 0 ex_R "Foo" (FieldAt "bar" 16);
       HopLine 1 ex_A "[Ljava/lang/Object;" (ElemAt 1);
       HopLine 2 ex_O "Foo" NoField] ∧
    hops_linked ex_vm
      [HopLine 0 ex_R "Foo" (FieldAt "bar" 16);
       HopLine 1 ex_A "[Ljava/lang/Object;" (ElemAt 1);
       HopLine 2 ex_O "Foo" NoField].
Proof.
  eapply (proj1 (trace_correctness ex_vm exclusion_table [ex_Foo]
                   [(ex_O, entry_from ex_A); (ex_A, entry_from ex_R); (ex_R, root_entry)] 5
                   ltac:(vm_compute; discriminate))).
  - reflexivity.
  - left.
Defined.

(** C7 (iteration-order independence).  Two runs of the cross-check from the
    same verifier state (the same table) over the same cache, visiting its
    entries in two orders, both visit every entry (the counter of scanned
    objects is incremented once per entry in each) and report the same
    violations: the two lists of (origin, object) are permutations of each
    other, so the sets are equal and so are the counts.  [do_entry] never
    asks the table to stop. *)
Theorem iteration_order_independent (vm : Host) (cache : list (oop * CachedOopInfo))
    (fuel : nat) (entries1 entries2 : list (oop * CachedOopInfo)) (verf : CDSHeapVerifier) :
  entries1 ≡ₚ entries2 →
  traceable vm cache entries1 fuel →
  ∃ verf1 verf2,
    iterate vm cache fuel entries1 verf = Some verf1 ∧
    iterate vm cache fuel entries2 verf = Some verf2 ∧
    violations (warnings verf1) ≡ₚ violations (warnings verf2) ∧
    (∀ x, x ∈ violations (warnings verf1) ↔ x ∈ violations (warnings verf2)) ∧
    _archived_objs verf1 = Nat.iter (length entries1) jint_incr (_archived_objs verf) ∧
    _archived_objs verf2 = Nat.iter (length entries2) jint_incr (_archived_objs verf) ∧
    _archived_objs verf1 = _archived_objs verf2 ∧
    _problems verf1 = _problems verf2 ∧
    (∀ o p verf0 keep_on verf', do_entry vm cache fuel o p verf0 = Some (keep_on, verf') →
                                keep_on = true).
Proof.
  intros Hperm Htr1.
  assert (Htr2 : traceable vm cache entries2 fuel).
  { intros o p Hin. apply Htr1. rewrite Hperm. exact Hin. }
  destruct (iterate_spec vm cache fuel entries1 verf Htr1)
    as (verf1 & ev1 & Hit1 & _ & Hw1 & Hv1 & _ & Ha1 & Hp1).
  destruct (iterate_spec vm cache fuel entries2 verf Htr2)
    as (verf2 & ev2 & Hit2 & _ & Hw2 & Hv2 & _ & Ha2 & Hp2).
  assert (Hhits : hits (_table verf) entries1 ≡ₚ hits (_table verf) entries2).
  { unfold hits. rewrite Hperm. reflexivity. }
  assert (Hviol : violations (warnings verf1) ≡ₚ violations (warnings verf2)).
  { rewrite Hw1, Hw2, !violations_app, Hv1, Hv2, Hhits. reflexivity. }
  exists verf1, verf2.
  split; [exact Hit1|]. split; [exact Hit2|]. split; [exact Hviol|].
  split; [intros x; rewrite Hviol; reflexivity|].
  split; [exact Ha1|]. split; [exact Ha2|].
  split; [rewrite Ha1, Ha2, (Permutation_length Hperm); reflexivity|].
  split; [rewrite Hp1, Hp2, (Permutation_length Hhits); reflexivity|].
  intros o p verf0 keep_on verf' H. unfold do_entry in H.
  destruct (_table verf0 !! o); [|congruence].
  destruct (trace_to_root vm cache fuel o NULL p) as [[level lines]|]; congruence.
Qed.

Lemma iteration_order_independent_witness :
  ∃ verf1 verf2,
    iterate ex_vm [(ex_O, root_entry); (ex_S, root_entry)] 5
      [(ex_O, root_entry); (ex_S, root_entry)]
      (CDSHeapVerifier_new ex_vm exclusion_table [ex_Foo; ex_Alias]) = Some verf1 ∧
    iterate ex_vm [(ex_O, root_entry); (ex_S, root_entry)] 5
      [(ex_S, root_entry); (ex_O, root_entry)]
      (CDSHeapVerifier_new ex_vm exclusion_table [ex_Foo; ex_Alias]) = Some verf2 ∧
    violations (warnings verf1) ≡ₚ violations (warnings verf2) ∧
    (∀ x, x ∈ violations (warnings verf1) ↔ x ∈ violations (warnings verf2)) ∧
    _archived_objs verf1 = Nat.iter 2 jint_incr 0%Z ∧
    _archived_objs verf2 = Nat.iter 2 jint_incr 0%Z ∧
    _archived_objs verf1 = _archived_objs verf2 ∧
    _problems verf1 = _problems verf2 ∧
    (∀ o p verf0 keep_on verf',
       do_entry ex_vm [(ex_O, root_entry); (ex_S, root_entry)] 5 o p verf0
         = Some (keep_on, verf') →
       keep_on = true).
Proof.
  apply (iteration_order_independent ex_vm [(ex_O, root_entry); (ex_S, root_entry)] 5
           [(ex_O, root_entry); (ex_S, root_entry)]
           [(ex_S, root_entry); (ex_O, root_entry)]
           (CDSHeapVerifier_new ex_vm exclusion_table [ex_Foo; ex_Alias])).
  - apply perm_swap.
  - intros o p H. exists 0%nat. split; [lia|]. apply rooted_root.
    apply elem_of_cons in H as [H|H]; [injection H as -> ->; reflexivity|].
    apply list_elem_of_singleton in H. injection H as -> ->. reflexivity.
Defined.

(** C8 (last write wins).  A put overwrites whatever the table held for the
    key.  After the scan, the table maps an object k to the origin of the
    last field in scan order that was indexed with k (the fields the scan
    skips put nothing): when two static fields are indexed with the same
    object, only the origin of the one scanned last is retained, as for
    Foo.archivedFoo and Bar.bar in either order.  The cache holding each
    object once, at most one violation is about a given object. *)
Theorem last_write_wins (vm : Host) (excl : list (string * list string)) :
  (∀ ik mirror exclusions (table : gmap Z StaticFieldInfo) fd,
     scan_field vm mirror exclusions fd = Indexed →
     do_field vm ik mirror exclusions table fd !! obj_field vm mirror (fd_offset fd)
       = Some {| _holder := ik; _name := fd_name fd |}) ∧
  (∀ cs1 c cs2 fs1 fd fs2 (k : oop),
     k_fields (metaspace vm c) = fs1 ++ fd :: fs2 →
     indexes vm excl c fd k →
     (∀ fd', fd' ∈ fs2 → ¬ indexes vm excl c fd' k) →
     classes_miss vm excl cs2 k →
     classes_do vm excl (cs1 ++ c :: cs2) ∅ !! k = Some (origin c fd)) ∧
  (∀ classes (cache : list (oop * CachedOopInfo)) fuel log (k : oop),
     NoDup cache.*1 →
     verify vm excl classes cache fuel = Some log →
     (length (List.filter (about k) (violations log)) ≤ 1)%nat) ∧
  classes_do ex_vm exclusion_table [ex_Foo; ex_Bar] ∅ !! ex_O
    = Some {| _holder := ex_Bar; _name := "bar" |} ∧
  classes_do ex_vm exclusion_table [ex_Bar; ex_Foo] ∅ !! ex_O
    = Some {| _holder := ex_Foo; _name := "archivedFoo" |}.
Proof.
  split; [|split; [|split; [|split; reflexivity]]].
  - intros ik mirror exclusions table fd H. unfold do_field. rewrite H.
    apply lookup_insert_eq.
  - intros cs1 c cs2 fs1 fd fs2 k Hf Hidx Hlater Hmiss.
    eapply classes_do_last; eauto.
  - intros classes cache fuel log k Hnd Hlog.
    rewrite (verify_violations _ _ _ _ _ _ Hlog). apply hits_about_le. exact Hnd.
Qed.

Lemma last_write_wins_witness :
  classes_do ex_vm exclusion_table ([ex_Foo] ++ ex_Bar :: [ex_System]) ∅ !! ex_O
    = Some (origin ex_Bar (mk_field "bar" true T_OBJECT 8 true false)).
Proof.
  apply (proj1 (proj2 (last_write_wins ex_vm exclusion_table))
           [ex_Foo] ex_Bar [ex_System] [] (mk_field "bar" true T_OBJECT 8 true false) [] ex_O).
  - reflexivity.
  - split; reflexivity.
  - intros fd' H. inversion H.
  - intros c fd Hc Hfd [Hidx Hval].
    apply list_elem_of_singleton in Hc. subst c. vm_compute in Hfd.
    apply elem_of_cons in Hfd as [->|Hfd]; [vm_compute in Hidx; discriminate|].
    apply list_elem_of_singleton in Hfd. subst fd. vm_compute in Hval. discriminate.
Defined.

(** * Further properties of the code *)

Section TableProofs.

Context (vm : Host) (excl : list (string * list string)).

Lemma index_fields_mono (c : KlassPtr) fs (t : gmap Z StaticFieldInfo) (v : Z) :
  is_Some (t !! v) → is_Some (fold_left (index_field vm excl c) fs t !! v).
Proof.
  revert t. induction fs as [|fd fs IH]; intros t H; simpl; [exact H|].
  apply IH. rewrite index_field_lookup. destruct (decide _); [eauto|exact H].
Qed.

Lemma index_fields_hit (c : KlassPtr) fs fd (t : gmap Z StaticFieldInfo) (v : Z) :
  fd ∈ fs → indexes vm excl c fd v →
  is_Some (fold_left (index_field vm excl c) fs t !! v).
Proof.
  revert t. induction fs as [|fd' fs IH]; intros t Hin Hidx; [inversion Hin|].
  simpl. apply elem_of_cons in Hin as [<-|Hin].
  - apply index_fields_mono. rewrite index_field_lookup.
    destruct (decide _) as [|Hn]; [eauto|]. exfalso. apply Hn. exact Hidx.
  - apply IH; assumption.
Qed.

Lemma classes_do_mono cs (t : gmap Z StaticFieldInfo) (v : Z) :
  is_Some (t !! v) → is_Some (classes_do vm excl cs t !! v).
Proof.
  unfold classes_do. revert t. induction cs as [|c cs IH]; intros t H; simpl; [exact H|].
  apply IH. rewrite do_klass_fold. apply index_fields_mono. exact H.
Qed.

Lemma classes_do_hit cs c fd (t : gmap Z StaticFieldInfo) (v : Z) :
  c ∈ cs → fd ∈ k_fields (metaspace vm c) → indexes vm excl c fd v →
  is_Some (classes_do vm excl cs t !! v).
Proof.
  unfold classes_do. revert t.
  induction cs as [|c' cs IH]; intros t Hc Hfd Hidx; [inversion Hc|].
  simpl. apply elem_of_cons in Hc as [<-|Hc].
  - apply (classes_do_mono cs). rewrite do_klass_fold.
    eapply index_fields_hit; eassumption.
  - apply IH; assumption.
Qed.

End TableProofs.

(** X3.  The scan never removes an entry, and the keys of the table after
    the scan are exactly the keys it had before and the current values of
    the fields that [do_klass] indexes. *)
Theorem table_keys (vm : Host) (excl : list (string * list string))
    (classes : list KlassPtr) (table : gmap Z StaticFieldInfo) (v : oop) :
  is_Some (classes_do vm excl classes table !! v) ↔
  is_Some (table !! v) ∨
  ∃ c fd, c ∈ classes ∧ fd ∈ k_fields (metaspace vm c) ∧ indexes vm excl c fd v.
Proof.
  split.
  - intros [info H]. apply classes_do_inv in H as [H|(c & fd & Hc & Hfd & Hidx & _)].
    + left. eauto.
    + right. eauto.
  - intros [H|(c & fd & Hc & Hfd & Hidx)].
    + apply classes_do_mono. exact H.
    + eapply classes_do_hit; eassumption.
Qed.

(** X1.  In a run of [verify] that returns, an object is reported if and
    only if it is in the cache and is the current value of at least one
    field that [do_klass] indexes. *)
Theorem reported_iff (vm : Host) (excl : list (string * list string))
    (classes : list KlassPtr) (cache : list (oop * CachedOopInfo)) (fuel : nat)
    (log : list log_event) (v : oop) :
  verify vm excl classes cache fuel = Some log →
  ((∃ info, (info, v) ∈ violations log) ↔
   (∃ p, (v, p) ∈ cache) ∧
   ∃ c fd, c ∈ classes ∧ fd ∈ k_fields (metaspace vm c) ∧ indexes vm excl c fd v).
Proof.
  intros Hlog. rewrite (verify_violations _ _ _ _ _ _ Hlog). split.
  - intros [info Hin]. apply elem_of_hits in Hin as [Hlk Hp].
    split; [exact Hp|].
    apply classes_do_inv in Hlk as [Hlk|(c & fd & Hc & Hfd & Hidx & _)]; [|eauto].
    rewrite lookup_empty in Hlk. discriminate.
  - intros [Hp (c & fd & Hc & Hfd & Hidx)].
    destruct (classes_do_hit vm excl classes c fd ∅ v Hc Hfd Hidx) as [info Hlk].
    exists info. apply elem_of_hits. auto.
Qed.

Lemma reported_iff_witness :
  (∃ info, (info, ex_O) ∈ violations
     [Problem {| _holder := ex_Foo; _name := "archivedFoo" |} ex_O
        [HopLine 0 ex_O "Foo" NoField];
      Summary 1 1]) ↔
  (∃ p, (ex_O, p) ∈ [(ex_O, root_entry)]) ∧
  ∃ c fd, c ∈ [ex_Foo] ∧ fd ∈ k_fields (metaspace ex_vm c) ∧
          indexes ex_vm exclusion_table c fd ex_O.
Proof.
  apply (reported_iff ex_vm exclusion_table [ex_Foo] [(ex_O, root_entry)] 5).
  reflexivity.
Defined.

(** X2.  Every violation of a run that returns is about a non-null object of
    the cache and names a loaded instance class that is not a root class and
    a static field of it, of type T_OBJECT and not exempted, whose current
    value is the reported object. *)
Theorem violation_names_live_field (vm : Host) (excl : list (string * list string))
    (classes : list KlassPtr) (cache : list (oop * CachedOopInfo)) (fuel : nat)
    (log : list log_event) (info : StaticFieldInfo) (v : oop) :
  verify vm excl classes cache fuel = Some log →
  (info, v) ∈ violations log →
  (∃ p, (v, p) ∈ cache) ∧ v ≠ NULL ∧
  _holder info ∈ classes ∧
  k_is_instance_klass (metaspace vm (_holder info)) = true ∧
  k_is_subgraph_root_class (metaspace vm (_holder info)) = false ∧
  ∃ fd, fd ∈ k_fields (metaspace vm (_holder info)) ∧
        fd_name fd = _name info ∧
        fd_is_static fd = true ∧ fd_field_type fd = T_OBJECT ∧
        is_excluded vm excl (_holder info) fd = false ∧
        static_value vm (_holder info) fd = v.
Proof.
  intros Hlog Hin.
  destruct (reported_inv vm excl classes cache fuel log info v Hlog Hin)
    as (c & fd & Hc & Hfd & [Hidx Hval] & ->).
  rewrite (verify_violations _ _ _ _ _ _ Hlog) in Hin.
  apply elem_of_hits in Hin as [_ Hp].
  apply do_klass_field_Indexed_inv in Hidx
    as ((Hi & Hst & Hty) & Hroot & Hex & Hnull & _).
  simpl. split; [exact Hp|]. split; [rewrite <- Hval; exact Hnull|].
  split; [exact Hc|]. split; [exact Hi|]. split; [exact Hroot|].
  exists fd. auto 10.
Qed.

Lemma violation_names_live_field_witness :
  (∃ p, (ex_O, p) ∈ [(ex_O, root_entry)]) ∧ ex_O ≠ NULL ∧
  ex_Bar ∈ [ex_Foo; ex_Bar] ∧
  k_is_instance_klass (metaspace ex_vm ex_Bar) = true ∧
  k_is_subgraph_root_class (metaspace ex_vm ex_Bar) = false ∧
  ∃ fd, fd ∈ k_fields (metaspace ex_vm ex_Bar) ∧
        fd_name fd = "bar" ∧
        fd_is_static fd = true ∧ fd_field_type fd = T_OBJECT ∧
        is_excluded ex_vm exclusion_table ex_Bar fd = false ∧
        static_value ex_vm ex_Bar fd = ex_O.
Proof.
  eapply (violation_names_live_field ex_vm exclusion_table [ex_Foo; ex_Bar]
            [(ex_O, root_entry)] 5 _ {| _holder := ex_Bar; _name := "bar" |} ex_O).
  - reflexivity.
  - left.
Defined.

Section ExclusionProofs.

Context (vm : Host).

Lemma excluded_in_iff (names : list string) (fname : string) :
  excluded_in names fname = true ↔ fname ∈ names.
Proof.
  induction names as [|p names IH]; simpl.
  - split; [discriminate|]. intros H. inversion H.
  - destruct (String.eqb fname p) eqn:E.
    + apply String.eqb_eq in E. subst p. split; [intros _; left|reflexivity].
    + apply String.eqb_neq in E. rewrite IH, elem_of_cons. split; [auto|].
      intros [H|H]; [contradiction|exact H].
Qed.

Lemma find_exclusion_NoDup (excl : list (string * list string)) (cname : string)
    (names : list string) :
  NoDup excl.*1 → (cname, names) ∈ excl → find_exclusion excl cname = Some names.
Proof.
  induction excl as [|[c ns] excl IH]; intros Hnd Hin; [inversion Hin|].
  rewrite fmap_cons in Hnd. apply NoDup_cons in Hnd as [Hfresh Hnd]. simpl in *.
  apply elem_of_cons in Hin as [Heq|Hin].
  - injection Heq as <- <-. rewrite String.eqb_refl. reflexivity.
  - destruct (String.eqb cname c) eqn:E; [|apply IH; assumption].
    apply String.eqb_eq in E. subst c. exfalso. apply Hfresh.
    apply list_elem_of_fmap. exists (cname, names). auto.
Qed.

Lemma excluded_not_indexed (excl : list (string * list string)) (c : KlassPtr)
    (fd : fieldDescriptor) (names : list string) :
  find_exclusion excl (k_name (metaspace vm c)) = Some names →
  fd_name fd ∈ names →
  do_klass_field vm excl c fd ≠ FieldOutcome Indexed.
Proof.
  intros Hfind Hin H.
  apply do_klass_field_Indexed_inv in H as (_ & _ & Hex & _).
  unfold is_excluded in Hex. rewrite Hfind in Hex.
  apply excluded_in_iff in Hin. congruence.
Qed.

(** The conditions under which [do_klass] indexes a field. *)
Lemma do_klass_field_Indexed_intro (excl : list (string * list string)) (c : KlassPtr)
    (fd : fieldDescriptor) :
  static_object_field vm c fd →
  k_is_subgraph_root_class (metaspace vm c) = false →
  is_excluded vm excl c fd = false →
  static_value vm c fd ≠ NULL →
  rule_matches vm excl c fd Rule4 = false →
  rule_matches vm excl c fd Rule5 = false →
  rule_matches vm excl c fd Rule6 = false →
  do_klass_field vm excl c fd = FieldOutcome Indexed.
Proof.
  intros (Hi & Hst & Hty) Hroot Hex Hnull H4 H5 H6.
  unfold do_klass_field, scan_field. rewrite Hi, Hroot, Hst, Hty. simpl BasicType_eqb.
  fold (static_value vm c fd).
  apply Z.eqb_neq in Hnull. rewrite Hnull. simpl negb. cbv iota.
  unfold is_excluded in Hex. rewrite Hex.
  unfold rule_matches in H4, H5, H6. rewrite H4, H5, H6. reflexivity.
Qed.

Lemma indexes_fewer_exclusions (excl1 excl2 : list (string * list string)) :
  (∀ c fd, is_excluded vm excl1 c fd = true → is_excluded vm excl2 c fd = true) →
  ∀ c fd (v : Z), indexes vm excl2 c fd v → indexes vm excl1 c fd v.
Proof.
  intros Hle c fd v [Hidx Hval]. split; [|exact Hval].
  apply do_klass_field_Indexed_inv in Hidx as (Hs & Hroot & Hex & Hnull & H4 & H5 & H6).
  apply do_klass_field_Indexed_intro; auto.
  destruct (is_excluded vm excl1 c fd) eqn:E; [|reflexivity].
  apply Hle in E. congruence.
Qed.

Lemma hits_objects_sublist (t1 t2 : gmap Z StaticFieldInfo)
    (entries : list (Z * CachedOopInfo)) :
  (∀ v : Z, is_Some (t2 !! v) → is_Some (t1 !! v)) →
  (hits t2 entries).*2 `sublist_of` (hits t1 entries).*2.
Proof.
  intros Hsub. induction entries as [|[o p] entries IH]; [constructor|].
  rewrite !hits_cons.
  destruct (t2 !! o) as [i2|] eqn:E2.
  - destruct (Hsub o) as [i1 E1]; [eauto|]. rewrite E1. simpl.
    apply sublist_skip. exact IH.
  - destruct (t1 !! o); [simpl; apply sublist_cons|]; exact IH.
Qed.

Lemma hits_objects_ext (t1 t2 : gmap Z StaticFieldInfo)
    (entries : list (Z * CachedOopInfo)) :
  (∀ v : Z, is_Some (t1 !! v) ↔ is_Some (t2 !! v)) →
  (hits t1 entries).*2 = (hits t2 entries).*2.
Proof.
  intros Hext. induction entries as [|[o p] entries IH]; [reflexivity|].
  rewrite !hits_cons.
  destruct (t1 !! o) as [i1|] eqn:E1, (t2 !! o) as [i2|] eqn:E2; simpl.
  - f_equal. exact IH.
  - destruct (proj1 (Hext o)) as [x Hx]; [eauto|]. congruence.
  - destruct (proj2 (Hext o)) as [x Hx]; [eauto|]. congruence.
  - exact IH.
Qed.

End ExclusionProofs.

(** X4.  A field whose name is listed for its class in the exclusions is
    never indexed, whatever its value and its flags: scanning it leaves the
    table as it is. *)
Theorem excluded_field_skipped (vm : Host) (excl : list (string * list string))
    (c : KlassPtr) (fd : fieldDescriptor) (names : list string) :
  find_exclusion excl (k_name (metaspace vm c)) = Some names →
  fd_name fd ∈ names →
  do_klass_field vm excl c fd ≠ FieldOutcome Indexed ∧
  ∀ table, index_field vm excl c table fd = table.
Proof.
  intros Hfind Hin.
  pose proof (excluded_not_indexed vm excl c fd names Hfind Hin) as Hskip.
  split; [exact Hskip|]. intros table. apply index_field_skip. exact Hskip.
Qed.

Lemma excluded_field_skipped_witness :
  do_klass_field ex_vm exclusion_table ex_System
    (mk_field "bootLayer" true T_OBJECT 8 false false) ≠ FieldOutcome Indexed.
Proof.
  apply (excluded_field_skipped ex_vm exclusion_table ex_System
           (mk_field "bootLayer" true T_OBJECT 8 false false) ["bootLayer"]).
  - reflexivity.
  - left.
Defined.

(** X5.  Every entry of the table the constructor builds takes effect: no
    class name is listed twice, so for every class name and field name that
    an ADD_EXCL line lists, a field of that name in a class of that name is
    never indexed, in any host. *)
Theorem exclusion_table_effective (vm : Host) (c : KlassPtr) (fd : fieldDescriptor)
    (names : list string) :
  (k_name (metaspace vm c), names) ∈ exclusion_table →
  fd_name fd ∈ names →
  do_klass_field vm exclusion_table c fd ≠ FieldOutcome Indexed.
Proof.
  intros Hentry Hin.
  eapply excluded_not_indexed; [|exact Hin].
  apply find_exclusion_NoDup; [|exact Hentry].
  apply (bool_decide_unpack _). vm_compute. exact I.
Qed.

Lemma exclusion_table_effective_witness :
  do_klass_field ex_vm exclusion_table ex_ClassLoader
    (mk_field "scl" true T_OBJECT 8 false false) ≠ FieldOutcome Indexed.
Proof.
  apply (exclusion_table_effective ex_vm ex_ClassLoader
           (mk_field "scl" true T_OBJECT 8 false false) ["scl"]).
  - left.
  - left.
Defined.

(** X6.  Exclusions only remove reports: when every field exempted by one
    list of exclusions is exempted by a second, the objects reported by a run
    with the second are, in order, among the objects reported by a run with
    the first. *)
Theorem more_exclusions_fewer_reports (vm : Host) (excl1 excl2 : list (string * list string))
    (classes : list KlassPtr) (cache : list (oop * CachedOopInfo)) (fuel1 fuel2 : nat)
    (log1 log2 : list log_event) :
  (∀ c fd, is_excluded vm excl1 c fd = true → is_excluded vm excl2 c fd = true) →
  verify vm excl1 classes cache fuel1 = Some log1 →
  verify vm excl2 classes cache fuel2 = Some log2 →
  (violations log2).*2 `sublist_of` (violations log1).*2 ∧
  (length (violations log2) ≤ length (violations log1))%nat.
Proof.
  intros Hle H1 H2.
  rewrite (verify_violations _ _ _ _ _ _ H1), (verify_violations _ _ _ _ _ _ H2).
  assert (Hsub : (hits (classes_do vm excl2 classes ∅) cache).*2
                 `sublist_of` (hits (classes_do vm excl1 classes ∅) cache).*2).
  { apply hits_objects_sublist. intros v [info Hlk].
    apply classes_do_inv in Hlk as [Hlk|(c & fd & Hc & Hfd & Hidx & _)].
    - rewrite lookup_empty in Hlk. discriminate.
    - eapply classes_do_hit; [exact Hc|exact Hfd|].
      eapply indexes_fewer_exclusions; eassumption. }
  split; [exact Hsub|].
  apply sublist_length in Hsub. rewrite !length_fmap in Hsub. exact Hsub.
Qed.

Lemma more_exclusions_fewer_reports_witness :
  (violations []).*2 `sublist_of`
    (violations [Problem {| _holder := ex_System; _name := "bootLayer" |} ex_P
                   [HopLine 0 ex_P "Foo" NoField];
                 Summary 1 1]).*2 ∧
  (length (violations []) ≤
   length (violations [Problem {| _holder := ex_System; _name := "bootLayer" |} ex_P
                         [HopLine 0 ex_P "Foo" NoField];
                       Summary 1 1]))%nat.
Proof.
  apply (more_exclusions_fewer_reports ex_vm [] exclusion_table [ex_System]
           [(ex_P, root_entry)] 5 5).
  - intros c fd H. vm_compute in H. discriminate.
  - reflexivity.
  - reflexivity.
Defined.

Section RunProofs.

Context (vm : Host) (cache : list (Z * CachedOopInfo)) (fuel : nat).

(** The counters and the log of a cross-check that returns. *)
Lemma iterate_counters entries (verf verf' : CDSHeapVerifier) :
  iterate vm cache fuel entries verf = Some verf' →
  _archived_objs verf' = Nat.iter (length entries) jint_incr (_archived_objs verf) ∧
  _problems verf' = Nat.iter (length (hits (_table verf) entries)) jint_incr (_problems verf) ∧
  ∃ events, warnings verf' = warnings verf ++ events ∧
            Forall (fun e => is_Summary e = false) events.
Proof.
  revert verf. induction entries as [|[o p] entries IH]; intros verf H.
  - injection H as <-. split; [reflexivity|]. split; [reflexivity|].
    exists []. rewrite app_nil_r. auto.
  - simpl in H. unfold do_entry in H. rewrite hits_cons.
    destruct (_table verf !! o) as [info|] eqn:Hlk.
    + destruct (trace_to_root vm cache fuel o NULL p) as [[level lines]|]; [|discriminate].
      apply IH in H as (Ha & Hp & events & Hw & Hs). simpl in Ha, Hp, Hw.
      split; [rewrite Ha; simpl; rewrite Nat.iter_swap; reflexivity|].
      split; [rewrite Hp; simpl; rewrite Nat.iter_swap; reflexivity|].
      exists (Problem info o lines :: events).
      split; [rewrite Hw, <- app_assoc; reflexivity|].
      constructor; [reflexivity|exact Hs].
    + apply IH in H as (Ha & Hp & events & Hw & Hs). simpl in Ha, Hp, Hw.
      split; [rewrite Ha; simpl; rewrite Nat.iter_swap; reflexivity|].
      split; [exact Hp|]. exists events. auto.
Qed.

(** The cross-check fails exactly when the trace of a hit fails. *)
Lemma iterate_fails_iff entries (verf : CDSHeapVerifier) :
  iterate vm cache fuel entries verf = None ↔
  ∃ o p, (o, p) ∈ entries ∧ is_Some (_table verf !! o) ∧
         trace_to_root vm cache fuel o NULL p = None.
Proof.
  revert verf. induction entries as [|[o p] entries IH]; intros verf.
  - simpl. split; [discriminate|]. intros (o & p & Hin & _). inversion Hin.
  - simpl. unfold do_entry.
    destruct (_table verf !! o) as [info|] eqn:Hlk.
    + destruct (trace_to_root vm cache fuel o NULL p) as [[level lines]|] eqn:Ht.
      * rewrite IH. simpl. split.
        -- intros (o' & p' & Hin & Hs & Hn). exists o', p'.
           split; [right; exact Hin|]. auto.
        -- intros (o' & p' & Hin & Hs & Hn).
           apply elem_of_cons in Hin as [Heq|Hin]; [injection Heq as -> ->; congruence|].
           exists o', p'. auto.
      * split; [|reflexivity]. intros _. exists o, p.
        split; [left|]. split; [rewrite Hlk; eauto|exact Ht].
    + rewrite IH. simpl. split.
      * intros (o' & p' & Hin & Hs & Hn). exists o', p'.
        split; [right; exact Hin|]. auto.
      * intros (o' & p' & Hin & Hs & Hn).
        apply elem_of_cons in Hin as [Heq|Hin].
        -- injection Heq as -> ->. rewrite Hlk in Hs. destruct Hs as [x Hx]. discriminate.
        -- exists o', p'. auto.
Qed.

Lemma hits_objects_filter (table : gmap Z StaticFieldInfo) (entries : list (Z * CachedOopInfo)) :
  (hits table entries).*2 = filter (λ o : Z, is_Some (table !! o)) entries.*1.
Proof.
  induction entries as [|[o p] entries IH]; [reflexivity|].
  rewrite hits_cons, fmap_cons, filter_cons. simpl.
  destruct (table !! o) as [info|] eqn:E.
  - rewrite decide_True by eauto. simpl. f_equal. exact IH.
  - rewrite decide_False by (intros [x Hx]; discriminate). exact IH.
Qed.



End RunProofs.


(** X7.  The order in which the classes are enumerated changes the origin
    that is named, never the objects that are reported: when a run returns,
    the run over any permutation of the classes returns too and reports the
    same objects in the same order. *)
Theorem class_order_same_objects (vm : Host) (excl : list (string * list string))
    (classes1 classes2 : list KlassPtr) (cache : list (oop * CachedOopInfo)) (fuel : nat)
    (log1 : list log_event) :
  classes1 ≡ₚ classes2 →
  verify vm excl classes1 cache fuel = Some log1 →
  ∃ log2,
    verify vm excl classes2 cache fuel = Some log2 ∧
    (violations log2).*2 = (violations log1).*2.
Proof.
  intros Hperm H1.
  assert (Hdom : ∀ v : Z, is_Some (classes_do vm excl classes2 ∅ !! v)
                          ↔ is_Some (classes_do vm excl classes1 ∅ !! v)).
  { intros v. split; intros [info Hlk];
      (apply classes_do_inv in Hlk as [Hlk|(c & fd & Hc & Hfd & Hidx & _)];
       [rewrite lookup_empty in Hlk; discriminate|]);
      (eapply classes_do_hit; [|exact Hfd|exact Hidx]).
    - rewrite Hperm. exact Hc.
    - rewrite <- Hperm. exact Hc. }
  destruct (verify vm excl classes2 cache fuel) as [log2|] eqn:H2.
  - exists log2. split; [reflexivity|].
    rewrite (verify_violations _ _ _ _ _ _ H1), (verify_violations _ _ _ _ _ _ H2).
    apply hits_objects_ext. exact Hdom.
  - exfalso. unfold verify in H1, H2.
    destruct (iterate vm cache fuel cache (CDSHeapVerifier_new vm excl classes2))
      eqn:Hit2; [discriminate|].
    apply iterate_fails_iff in Hit2 as (o & p & Hin & Hs & Hn). simpl in Hs.
    apply Hdom in Hs.
    assert (Hit1 : iterate vm cache fuel cache (CDSHeapVerifier_new vm excl classes1) = None).
    { apply iterate_fails_iff. exists o, p. auto. }
    rewrite Hit1 in H1. discriminate.
Qed.

Lemma class_order_same_objects_witness :
  ∃ log2,
    verify ex_vm exclusion_table [ex_Bar; ex_Foo] [(ex_O, root_entry)] 5 = Some log2 ∧
    (violations log2).*2 =
    (violations [Problem {| _holder := ex_Bar; _name := "bar" |} ex_O
                   [HopLine 0 ex_O "Foo" NoField];
                 Summary 1 1]).*2.
Proof.
  apply (class_order_same_objects ex_vm exclusion_table [ex_Foo; ex_Bar] [ex_Bar; ex_Foo]
           [(ex_O, root_entry)] 5).
  - apply perm_swap.
  - reflexivity.
Defined.

(** X8.  The problems are logged in the order in which the cache is
    iterated: the objects reported are, in order, the objects of the cache
    entries that are keys of the table, one report per such entry. *)
Theorem reports_in_iteration_order (vm : Host) (excl : list (string * list string))
    (classes : list KlassPtr) (cache : list (oop * CachedOopInfo)) (fuel : nat)
    (log : list log_event) :
  verify vm excl classes cache fuel = Some log →
  (violations log).*2 =
    filter (λ o : Z, is_Some (classes_do vm excl classes ∅ !! o)) cache.*1.
Proof.
  intros Hlog. rewrite (verify_violations _ _ _ _ _ _ Hlog).
  apply hits_objects_filter.
Qed.

Lemma reports_in_iteration_order_witness :
  (violations
     [Problem {| _holder := ex_Alias; _name := "T" |} ex_S
        [StringTableLine 0; HopLine 1 ex_S "java/lang/String" NoField];
      Problem {| _holder := ex_Alias; _name := "OBJ" |} ex_A
        [HopLine 0 ex_R "Foo" (FieldAt "bar" 16);
         HopLine 1 ex_A "[Ljava/lang/Object;" NoField];
      Summary 3 2]).*2 =
  filter (λ o : Z, is_Some (classes_do ex_vm exclusion_table [ex_Lit; ex_Alias] ∅ !! o))
    [(ex_S, root_entry); (ex_A, entry_from ex_R); (ex_R, root_entry)].*1.
Proof.
  apply (reports_in_iteration_order ex_vm exclusion_table [ex_Lit; ex_Alias]
           [(ex_S, root_entry); (ex_A, entry_from ex_R); (ex_R, root_entry)] 5).
  reflexivity.
Defined.

(** X9.  In the log of a run over a cache of at most [max_jint] entries, a
    summary can only be the last line, and it states the number of entries
    of the cache and the number of problems logged before it, which is at
    least one and at most the number of entries. *)
Theorem summary_counts (vm : Host) (excl : list (string * list string))
    (classes : list KlassPtr) (cache : list (oop * CachedOopInfo)) (fuel : nat)
    (log : list log_event) (N M : Z) :
  verify vm excl classes cache fuel = Some log →
  (Z.of_nat (length cache) ≤ max_jint)%Z →
  Summary N M ∈ log →
  N = Z.of_nat (length cache) ∧
  M = Z.of_nat (length (violations log)) ∧
  (0 < M ≤ N)%Z ∧
  ∃ problems, log = problems ++ [Summary N M] ∧
              Forall (fun e => is_Summary e = false) problems.
Proof.
  intros Hlog Hmax Hin. unfold verify in Hlog.
  destruct (iterate vm cache fuel cache (CDSHeapVerifier_new vm excl classes))
    as [verf'|] eqn:Hit; [|discriminate].
  injection Hlog as <-.
  pose proof (iterate_violations _ _ _ _ _ _ Hit) as [_ Hv].
  apply iterate_counters in Hit as (Ha & Hp & events & Hw & Hs).
  simpl in Ha, Hp, Hw, Hv. subst events.
  pose proof (hits_length (classes_do vm excl classes ∅) cache) as Hle.
  rewrite iter_jint_incr in Ha by lia. rewrite iter_jint_incr in Hp by lia.
  rewrite Z.add_0_l in Ha, Hp.
  assert (Hnot : Summary N M ∉ warnings verf').
  { intros Hx. rewrite Forall_forall in Hs. specialize (Hs _ Hx). discriminate. }
  unfold CDSHeapVerifier_delete in *.
  destruct (_problems verf' >? 0)%Z eqn:Epos; [|contradiction].
  apply elem_of_app in Hin as [Hin|Hin]; [contradiction|].
  apply list_elem_of_singleton in Hin. injection Hin as -> ->.
  rewrite violations_no_summary, Hv.
  apply Z.gtb_lt in Epos.
  split; [exact Ha|]. split; [exact Hp|]. split; [lia|].
  exists (warnings verf'). split; [reflexivity|exact Hs].
Qed.

Lemma summary_counts_witness :
  3%Z = Z.of_nat (length [(ex_S, root_entry); (ex_A, entry_from ex_R); (ex_R, root_entry)]) ∧
  2%Z = Z.of_nat (length (violations
     [Problem {| _holder := ex_Alias; _name := "T" |} ex_S
        [StringTableLine 0; HopLine 1 ex_S "java/lang/String" NoField];
      Problem {| _holder := ex_Alias; _name := "OBJ" |} ex_A
        [HopLine 0 ex_R "Foo" (FieldAt "bar" 16);
         HopLine 1 ex_A "[Ljava/lang/Object;" NoField];
      Summary 3 2])) ∧
  (0 < 2 ≤ 3)%Z ∧
  ∃ problems,
    [Problem {| _holder := ex_Alias; _name := "T" |} ex_S
       [StringTableLine 0; HopLine 1 ex_S "java/lang/String" NoField];
     Problem {| _holder := ex_Alias; _name := "OBJ" |} ex_A
       [HopLine 0 ex_R "Foo" (FieldAt "bar" 16);
        HopLine 1 ex_A "[Ljava/lang/Object;" NoField];
     Summary 3 2] = problems ++ [Summary 3 2] ∧
    Forall (fun e => is_Summary e = false) problems.
Proof.
  apply (summary_counts ex_vm exclusion_table [ex_Lit; ex_Alias]
           [(ex_S, root_entry); (ex_A, entry_from ex_R); (ex_R, root_entry)] 5).
  - reflexivity.
  - vm_compute. discriminate.
  - right. right. left.
Defined.

(** X10.  A run fails exactly when the trace of a hit fails: [verify] returns
    no log if and only if some entry of the cache whose object is a key of
    the table has a trace that fails; the entries that are not hits are
    never traced. *)
Theorem verify_fails_iff (vm : Host) (excl : list (string * list string))
    (classes : list KlassPtr) (cache : list (oop * CachedOopInfo)) (fuel : nat) :
  verify vm excl classes cache fuel = None ↔
  ∃ o p, (o, p) ∈ cache ∧
         is_Some (classes_do vm excl classes ∅ !! o) ∧
         trace_to_root vm cache fuel o NULL p = None.
Proof.
  unfold verify.
  rewrite <- (iterate_fails_iff vm cache fuel cache (CDSHeapVerifier_new vm excl classes)).
  destruct (iterate vm cache fuel cache (CDSHeapVerifier_new vm excl classes));
    split; intros H; try discriminate; reflexivity.
Qed.

(** X11.  When no object of the cache is a key of the table, [verify] returns
    an empty log whatever the bound on the depth and whatever the referrers
    recorded in the cache (nothing is traced); so it does for an empty cache
    and when no class is loaded. *)
Theorem no_hit_no_log (vm : Host) (excl : list (string * list string)) :
  (∀ classes (cache : list (oop * CachedOopInfo)) fuel,
     (∀ o p, (o, p) ∈ cache → classes_do vm excl classes ∅ !! o = None) →
     verify vm excl classes cache fuel = Some []) ∧
  (∀ classes fuel, verify vm excl classes [] fuel = Some []) ∧
  (∀ (cache : list (oop * CachedOopInfo)) fuel, verify vm excl [] cache fuel = Some []).
Proof.
  assert (Hgen : ∀ classes (cache : list (Z * CachedOopInfo)) fuel,
             (∀ o p, (o, p) ∈ cache → classes_do vm excl classes ∅ !! o = None) →
             verify vm excl classes cache fuel = Some []).
  { intros classes cache fuel Hnone.
    destruct (verify vm excl classes cache fuel) as [log|] eqn:Hlog.
    - pose proof (verify_violations _ _ _ _ _ _ Hlog) as Hv.
      assert (Hh : hits (classes_do vm excl classes ∅) cache = []).
      { clear Hlog Hv. induction cache as [|[o p] cache IH]; [reflexivity|].
        rewrite hits_cons, (Hnone o p) by left.
        apply IH. intros o' p' Hin. apply (Hnone o' p'). right. exact Hin. }
      unfold verify in Hlog.
      destruct (iterate vm cache fuel cache (CDSHeapVerifier_new vm excl classes))
        as [verf'|] eqn:Hit; [|discriminate].
      injection Hlog as <-.
      pose proof (iterate_violations _ _ _ _ _ _ Hit) as [_ Hv'].
      apply iterate_counters in Hit as (_ & Hp & events & Hw & Hs).
      simpl in Hp, Hw, Hv'. rewrite Hh in Hp, Hv'. simpl in Hp.
      unfold CDSHeapVerifier_delete. rewrite Hp. simpl. rewrite Hw.
      rewrite Hw in Hv'. f_equal.
      destruct events as [|e events]; [reflexivity|].
      apply Forall_cons in Hs as [He _].
      destruct e; [simpl in Hv'; discriminate|discriminate].
    - exfalso. unfold verify in Hlog.
      destruct (iterate vm cache fuel cache (CDSHeapVerifier_new vm excl classes))
        eqn:Hit; [discriminate|].
      apply iterate_fails_iff in Hit as (o & p & Hin & [x Hx] & _). simpl in Hx.
      rewrite (Hnone o p Hin) in Hx. discriminate. }
  split; [exact Hgen|]. split.
  - intros classes fuel. reflexivity.
  - intros cache fuel. apply Hgen. intros o p _. apply lookup_empty.
Qed.

Lemma no_hit_no_log_witness :
  verify ex_vm exclusion_table [ex_E; ex_System]
    [(ex_Q, entry_from ex_X); (ex_P, entry_from ex_P)] 0 = Some [].
Proof.
  apply (proj1 (no_hit_no_log ex_vm exclusion_table) [ex_E; ex_System]
           [(ex_Q, entry_from ex_X); (ex_P, entry_from ex_P)] 0).
  intros o p H.
  apply elem_of_cons in H as [H|H]; [injection H as -> ->; reflexivity|].
  apply list_elem_of_singleton in H. injection H as -> ->. reflexivity.
Defined.



Section ChainProofs.

Context (vm : Host) (cache : list (Z * CachedOopInfo)).

Lemma no_two_hops (lines : list trace_line) :
  (length lines ≤ 2)%nat →
  (∀ l (o : Z) type_name f rest, lines = HopLine l o type_name f :: rest → rest = []) →
  ∀ before l1 (parent : Z) n1 f1 l2 (child : Z) n2 f2 rest,
    lines ≠ before ++ HopLine l1 parent n1 f1 :: HopLine l2 child n2 f2 :: rest.
Proof.
  intros Hlen Hfirst before l1 parent n1 f1 l2 child n2 f2 rest Heq.
  subst lines. rewrite length_app in Hlen. simpl in Hlen.
  destruct before; [|simpl in Hlen; lia].
  specialize (Hfirst _ _ _ _ _ eq_refl). discriminate.
Qed.

Lemma hops_follow_snoc (o : Z) (p ref : CachedOopInfo) before l0 tn0 f0 l tn f :
  _referrer p ≠ NULL →
  cache_get cache (_referrer p) = Some ref →
  hops_follow_referrers cache (_referrer p) ref
    (before ++ [HopLine l0 (_referrer p) tn0 f0]) →
  hops_follow_referrers cache o p
    ((before ++ [HopLine l0 (_referrer p) tn0 f0]) ++ [HopLine l o tn f]).
Proof.
  intros Hne Hget Hfollow pre l1 parent n1 f1 l2 child n2 f2 rest Heq.
  destruct rest as [|x rest _] using rev_ind.
  - change (pre ++ [HopLine l1 parent n1 f1; HopLine l2 child n2 f2])
      with (pre ++ [HopLine l1 parent n1 f1] ++ [HopLine l2 child n2 f2]) in Heq.
    rewrite app_assoc in Heq. apply app_inj_tail in Heq as [Heq Hh].
    injection Hh as _ <- _ _.
    apply app_inj_tail in Heq as [_ Hh]. injection Hh as _ <- _ _.
    exists p. split; [left; auto|reflexivity].
  - change (pre ++ HopLine l1 parent n1 f1 :: HopLine l2 child n2 f2 :: rest ++ [x])
      with (pre ++ (HopLine l1 parent n1 f1 :: HopLine l2 child n2 f2 :: rest) ++ [x])
      in Heq.
    rewrite app_assoc in Heq. apply app_inj_tail in Heq as [Heq _].
    destruct (Hfollow _ _ _ _ _ _ _ _ _ _ Heq) as (pc & Hentry & Hpc).
    exists pc. split; [|exact Hpc]. right.
    destruct Hentry as [[-> ->]|Hc]; [exact Hget|exact Hc].
Qed.

(** The shape of every trace that is printed. *)
Lemma trace_chain (fuel : nat) :
  ∀ (o field : Z) (p : CachedOopInfo) level lines,
    trace_to_root vm cache fuel o field p = Some (level, lines) →
    ∃ n r before f,
      chain_root cache o p n r ∧ (n < fuel)%nat ∧
      lines = before ++ [HopLine level o (k_name (metaspace vm (klass vm o))) f] ∧
      length lines = (S n + if java_lang_String_is_instance vm r then 1 else 0)%nat ∧
      hops_follow_referrers cache o p lines ∧
      hops_typed vm lines.
Proof.
  induction fuel as [|fuel IH]; intros o field p level lines Ht; [discriminate|].
  rewrite trace_to_root_S in Ht.
  destruct (_referrer p =? NULL)%Z eqn:Er; simpl (negb _) in Ht; cbv iota in Ht.
  - apply Z.eqb_eq in Er.
    destruct (java_lang_String_is_instance vm o) eqn:Es;
      destruct (hop_field_of vm o field) as [f|] eqn:Hf; try discriminate;
      injection Ht as <- <-.
    + exists 0%nat, o, [StringTableLine 0%Z], f.
      split; [constructor; exact Er|]. split; [lia|]. split; [reflexivity|].
      split; [rewrite Es; reflexivity|]. split.
      * intros before l1 parent n1 f1 l2 child n2 f2 rest Heq. exfalso.
        revert Heq. apply no_two_hops; [simpl; lia|].
        intros l o' tn f0 rest0. discriminate.
      * intros l obj tn f0 Hin.
        apply elem_of_cons in Hin as [Hin|Hin]; [discriminate|].
        apply list_elem_of_singleton in Hin. injection Hin as _ -> -> _. reflexivity.
    + exists 0%nat, o, [], f.
      split; [constructor; exact Er|]. split; [lia|]. split; [reflexivity|].
      split; [rewrite Es; reflexivity|]. split.
      * intros before l1 parent n1 f1 l2 child n2 f2 rest Heq. exfalso.
        revert Heq. apply no_two_hops; [simpl; lia|].
        intros l o' tn f0 rest0 [= _ _ _ _ <-]. reflexivity.
      * intros l obj tn f0 Hin.
        apply list_elem_of_singleton in Hin. injection Hin as _ -> -> _. reflexivity.
  - apply Z.eqb_neq in Er.
    destruct (cache_get cache (_referrer p)) as [ref|] eqn:Hget; [|discriminate].
    destruct (trace_to_root vm cache fuel (_referrer p) o ref) as [[l0 lines0]|] eqn:Ht0;
      [|discriminate].
    destruct (hop_field_of vm o field) as [f|] eqn:Hf; [|discriminate].
    injection Ht as <- <-.
    destruct (IH _ _ _ _ _ Ht0)
      as (n & r & before & f' & Hchain & Hn & -> & Hlen & Hfollow & Htyped).
    exists (S n), r,
      (before ++ [HopLine l0 (_referrer p)
                    (k_name (metaspace vm (klass vm (_referrer p)))) f']), f.
    split; [exact (chain_root_step cache o p ref n r Er Hget Hchain)|].
    split; [lia|]. split; [reflexivity|].
    split; [rewrite length_app, Hlen; simpl; lia|]. split.
    + apply (hops_follow_snoc o p ref); assumption.
    + intros l obj tn f0 Hin. apply elem_of_app in Hin as [Hin|Hin].
      * eapply Htyped. exact Hin.
      * apply list_elem_of_singleton in Hin. injection Hin as _ -> -> _. reflexivity.
Qed.

Lemma chain_root_self_loop (o : Z) (p : CachedOopInfo) :
  _referrer p = o → o ≠ NULL → cache_get cache o = Some p →
  ∀ n r, ¬ chain_root cache o p n r.
Proof.
  intros Hself Hne Hget n. induction n as [|n IH]; intros r H; inversion H; subst.
  - congruence.
  - match goal with
    | Hg : cache_get cache (_referrer p) = Some ?ref, Hc : chain_root _ _ ?ref _ _ |- _ =>
        rewrite Hget in Hg; injection Hg as <-; exact (IH _ Hc)
    end.
Qed.

End ChainProofs.

(** X13.  A trace that is printed has one hop for the object and one for
    each referrer up to a root of the cache, reached through entries of the
    cache in fewer steps than the bound, and one more line, for the string
    table, when that root is a string; within the range of [int], the level
    returned is the level of the last line. *)
Theorem trace_length (vm : Host) (cache : list (oop * CachedOopInfo)) (fuel : nat)
    (o field : oop) (p : CachedOopInfo) (level : Z) (lines : list trace_line) :
  trace_to_root vm cache fuel o field p = Some (level, lines) →
  ∃ n r,
    chain_root cache o p n r ∧ (n < fuel)%nat ∧
    length lines = (S n + if java_lang_String_is_instance vm r then 1 else 0)%nat ∧
    ((Z.of_nat fuel ≤ max_jint)%Z → level = (Z.of_nat (length lines) - 1)%Z).
Proof.
  intros Ht.
  destruct (trace_chain vm cache fuel _ _ _ _ _ Ht)
    as (n & r & before & f & Hchain & Hn & _ & Hlen & _).
  exists n, r. split; [exact Hchain|]. split; [exact Hn|]. split; [exact Hlen|].
  intros Hmax.
  destruct (trace_inv vm cache fuel Hmax _ _ _ _ _ Ht) as (before' & f' & -> & -> & _).
  rewrite length_app. simpl. lia.
Qed.

Lemma trace_length_witness :
  ∃ n r,
    chain_root [(ex_O, entry_from ex_A); (ex_A, entry_from ex_R); (ex_R, root_entry)]
      ex_O (entry_from ex_A) n r ∧ (n < 5)%nat ∧
    length [HopLine 0 ex_R "Foo" (FieldAt "bar" 16);
            HopLine 1 ex_A "[Ljava/lang/Object;" (ElemAt 1);
            HopLine 2 ex_O "Foo" NoField]
      = (S n + if java_lang_String_is_instance ex_vm r then 1 else 0)%nat ∧
    ((Z.of_nat 5 ≤ max_jint)%Z →
     2%Z = (Z.of_nat (length [HopLine 0 ex_R "Foo" (FieldAt "bar" 16);
                              HopLine 1 ex_A "[Ljava/lang/Object;" (ElemAt 1);
                              HopLine 2 ex_O "Foo" NoField]) - 1)%Z).
Proof.
  apply (trace_length ex_vm
           [(ex_O, entry_from ex_A); (ex_A, entry_from ex_R); (ex_R, root_entry)] 5
           ex_O NULL (entry_from ex_A)).
  reflexivity.
Defined.

(** X14.  In a trace that is printed, each hop is the referrer recorded in
    the cache entry of the hop printed after it, and each hop carries the
    name of the class of its object. *)
Theorem trace_follows_referrers (vm : Host) (cache : list (oop * CachedOopInfo))
    (fuel : nat) (o field : oop) (p : CachedOopInfo) (level : Z)
    (lines : list trace_line) :
  trace_to_root vm cache fuel o field p = Some (level, lines) →
  hops_follow_referrers cache o p lines ∧ hops_typed vm lines.
Proof.
  intros Ht.
  destruct (trace_chain vm cache fuel _ _ _ _ _ Ht)
    as (n & r & before & f & _ & _ & _ & _ & Hfollow & Htyped).
  auto.
Qed.

Lemma trace_follows_referrers_witness :
  hops_follow_referrers
    [(ex_O, entry_from ex_A); (ex_A, entry_from ex_R); (ex_R, root_entry)]
    ex_O (entry_from ex_A)
    [HopLine 0 ex_R "Foo" (FieldAt "bar" 16);
     HopLine 1 ex_A "[Ljava/lang/Object;" (ElemAt 1);
     HopLine 2 ex_O "Foo" NoField] ∧
  hops_typed ex_vm
    [HopLine 0 ex_R "Foo" (FieldAt "bar" 16);
     HopLine 1 ex_A "[Ljava/lang/Object;" (ElemAt 1);
     HopLine 2 ex_O "Foo" NoField].
Proof.
  apply (trace_follows_referrers ex_vm
           [(ex_O, entry_from ex_A); (ex_A, entry_from ex_R); (ex_R, root_entry)] 5
           ex_O NULL (entry_from ex_A) 2%Z).
  reflexivity.
Defined.

(** X15.  The trace cannot be printed when the referrers never reach a
    root: if no number of steps through the cache leads from the entry to an
    entry without referrer (a referrer is missing from the cache, or the
    referrers form a cycle, as for an entry that is its own referrer), the
    trace fails under every bound. *)
Theorem trace_needs_root (vm : Host) (cache : list (oop * CachedOopInfo))
    (o : oop) (p : CachedOopInfo) :
  ((∀ n r, ¬ chain_root cache o p n r) →
   ∀ fuel field, trace_to_root vm cache fuel o field p = None) ∧
  (_referrer p ≠ NULL → cache_get cache (_referrer p) = None →
   ∀ fuel field, trace_to_root vm cache fuel o field p = None) ∧
  (_referrer p = o → o ≠ NULL → cache_get cache o = Some p →
   ∀ fuel field, trace_to_root vm cache fuel o field p = None).
Proof.
  assert (Hgen : (∀ n r, ¬ chain_root cache o p n r) →
                 ∀ fuel field, trace_to_root vm cache fuel o field p = None).
  { intros Hno fuel field.
    destruct (trace_to_root vm cache fuel o field p) as [[level lines]|] eqn:Ht;
      [|reflexivity].
    destruct (trace_chain vm cache fuel _ _ _ _ _ Ht) as (n & r & _ & _ & Hchain & _).
    exfalso. exact (Hno n r Hchain). }
  split; [exact Hgen|]. split.
  - intros Hne Hget. apply Hgen. intros n r H. inversion H; subst; congruence.
  - intros Hself Hne Hget. apply Hgen. apply chain_root_self_loop; assumption.
Qed.

Lemma trace_needs_root_witness :
  trace_to_root ex_vm [(ex_P, entry_from ex_P)] 7 ex_P NULL (entry_from ex_P) = None.
Proof.
  apply (proj2 (proj2 (trace_needs_root ex_vm [(ex_P, entry_from ex_P)]
                         ex_P (entry_from ex_P)))).
  - reflexivity.
  - vm_compute. discriminate.
  - reflexivity.
Defined.

(** X16.  The assertion on the kind of a parent: when the referrer of a
    non-null object is neither an instance nor an object array, the trace of
    the object fails, whatever the bound. *)
Theorem trace_needs_object_array (vm : Host) (cache : list (oop * CachedOopInfo))
    (fuel : nat) (o field : oop) (p : CachedOopInfo) :
  _referrer p ≠ NULL → o ≠ NULL →
  k_is_instance_klass (metaspace vm (klass vm (_referrer p))) = false →
  k_is_objArray_klass (metaspace vm (klass vm (_referrer p))) = false →
  trace_to_root vm cache fuel o field p = None.
Proof.
  intros Hne Ho Hi Ha.
  destruct fuel as [|fuel]; [reflexivity|].
  rewrite trace_to_root_S.
  apply Z.eqb_neq in Hne. rewrite Hne. simpl (negb _).
  destruct (cache_get cache (_referrer p)) as [ref|]; [|reflexivity].
  assert (Hparent : trace_to_root vm cache fuel (_referrer p) o ref = None).
  { destruct fuel as [|fuel]; [reflexivity|].
    rewrite trace_to_root_S.
    assert (Hf : hop_field_of vm (_referrer p) o = None).
    { unfold hop_field_of. apply Z.eqb_neq in Ho. rewrite Ho, Hi, Ha. reflexivity. }
    rewrite Hf.
    destruct (if negb (_referrer ref =? NULL)%Z then _ else _) as [[l ls]|]; reflexivity. }
  rewrite Hparent. reflexivity.
Qed.

Lemma trace_needs_object_array_witness :
  trace_to_root ex_vm_typeArray [(ex_O, entry_from ex_I); (ex_I, root_entry)] 5 ex_O NULL
    (entry_from ex_I) = None.
Proof.
  apply (trace_needs_object_array ex_vm_typeArray
           [(ex_O, entry_from ex_I); (ex_I, root_entry)] 5 ex_O NULL (entry_from ex_I)).
  - vm_compute. discriminate.
  - vm_compute. discriminate.
  - reflexivity.
  - reflexivity.
Defined.

(** X17.  A root class, and a class that is not an instance class, contribute
    nothing: [do_klass] leaves the table as it is for them, and no violation
    of any run names them. *)
Theorem root_class_never_named (vm : Host) (excl : list (string * list string))
    (k : KlassPtr) :
  k_is_subgraph_root_class (metaspace vm k) = true ∨
  k_is_instance_klass (metaspace vm k) = false →
  (∀ table, do_klass vm excl table k = table) ∧
  ∀ classes (cache : list (oop * CachedOopInfo)) fuel log info (v : oop),
    verify vm excl classes cache fuel = Some log →
    (info, v) ∈ violations log →
    _holder info ≠ k.
Proof.
  intros Hk. split.
  - intros table. rewrite do_klass_fold.
    assert (Hskip : ∀ fd, do_klass_field vm excl k fd ≠ FieldOutcome Indexed).
    { intros fd H.
      apply do_klass_field_Indexed_inv in H as ((Hi & _) & Hroot & _).
      destruct Hk; congruence. }
    revert table. induction (k_fields (metaspace vm k)) as [|fd fs IH]; intros table;
      [reflexivity|].
    simpl. rewrite index_field_skip by apply Hskip. apply IH.
  - intros classes cache fuel log info v Hlog Hin Heq.
    destruct (reported_inv vm excl classes cache fuel log info v Hlog Hin)
      as (c & fd & _ & _ & [Hidx _] & ->).
    simpl in Heq. subst c.
    apply do_klass_field_Indexed_inv in Hidx as ((Hi & _) & Hroot & _).
    destruct Hk; congruence.
Qed.

Lemma root_class_never_named_witness :
  do_klass ex_vm exclusion_table ∅ ex_ObjectArray = ∅.
Proof.
  apply (root_class_never_named ex_vm exclusion_table ex_ObjectArray).
  right. reflexivity.
Defined.

(** X18.  A final static field that holds a mirror is never indexed:
    scanning it leaves the table as it is.  The mirror is reported only when
    a static field that is not final holds it, and the violation then names
    that field. *)
Theorem final_mirror_not_indexed (vm : Host) (excl : list (string * list string))
    (classes : list KlassPtr) (cache : list (oop * CachedOopInfo)) (fuel : nat)
    (c : KlassPtr) (fd : fieldDescriptor) :
  fd_is_final fd = true →
  java_lang_Class_is_instance vm (static_value vm c fd) = true →
  do_klass_field vm excl c fd ≠ FieldOutcome Indexed ∧
  (∀ table, index_field vm excl c table fd = table) ∧
  ∀ log info,
    verify vm excl classes cache fuel = Some log →
    (info, static_value vm c fd) ∈ violations log →
    ∃ c' fd',
      c' ∈ classes ∧ fd' ∈ k_fields (metaspace vm c') ∧
      indexes vm excl c' fd' (static_value vm c fd) ∧
      info = origin c' fd' ∧ fd_is_final fd' = false.
Proof.
  intros Hfinal Hmirror.
  assert (Hskip : do_klass_field vm excl c fd ≠ FieldOutcome Indexed).
  { intros H. apply do_klass_field_Indexed_inv in H as (_ & _ & _ & _ & _ & H5 & _).
    unfold rule_matches in H5. rewrite Hfinal, Hmirror in H5. discriminate. }
  split; [exact Hskip|]. split; [intros table; apply index_field_skip; exact Hskip|].
  intros log info Hlog Hin.
  destruct (reported_inv vm excl classes cache fuel log info _ Hlog Hin)
    as (c' & fd' & Hc & Hfd & Hidx & Hinfo).
  exists c', fd'. repeat (split; [assumption|]).
  destruct Hidx as [Hidx Hval].
  apply do_klass_field_Indexed_inv in Hidx as (_ & _ & _ & _ & _ & H5 & _).
  unfold rule_matches in H5. rewrite Hval, Hmirror, andb_true_r in H5. exact H5.
Qed.

Lemma final_mirror_not_indexed_witness :
  do_klass_field ex_vm_mirror exclusion_table ex_Bar
    (mk_field "TYPE" true T_OBJECT 16 true false) ≠ FieldOutcome Indexed.
Proof.
  apply (final_mirror_not_indexed ex_vm_mirror exclusion_table [ex_Bar] [] 5 ex_Bar
           (mk_field "TYPE" true T_OBJECT 16 true false)).
  - reflexivity.
  - reflexivity.
Defined.

Section CacheOrderProofs.

Context (vm : Host).

Lemma cache_get_Some_elem (cache : list (Z * CachedOopInfo)) (k : Z) (v : CachedOopInfo) :
  cache_get cache k = Some v → (k, v) ∈ cache.
Proof.
  induction cache as [|[k' v'] cache IH]; simpl; [discriminate|].
  destruct (k' =? k)%Z eqn:E.
  - apply Z.eqb_eq in E. intros [= ->]. subst. left.
  - intros H. right. apply IH. exact H.
Qed.

Lemma cache_get_NoDup (cache : list (Z * CachedOopInfo)) (k : Z) (v : CachedOopInfo) :
  NoDup cache.*1 → (k, v) ∈ cache → cache_get cache k = Some v.
Proof.
  induction cache as [|[k' v'] cache IH]; intros Hnd Hin; [inversion Hin|].
  rewrite fmap_cons in Hnd. apply NoDup_cons in Hnd as [Hfresh Hnd]. simpl in *.
  apply elem_of_cons in Hin as [Heq|Hin].
  - injection Heq as <- <-. rewrite Z.eqb_refl. reflexivity.
  - destruct (k' =? k)%Z eqn:E; [|apply IH; assumption].
    apply Z.eqb_eq in E. subst k'. exfalso. apply Hfresh.
    apply list_elem_of_fmap. exists (k, v). auto.
Qed.

Lemma cache_get_perm (cache1 cache2 : list (Z * CachedOopInfo)) (k : Z) :
  NoDup cache1.*1 → cache1 ≡ₚ cache2 → cache_get cache1 k = cache_get cache2 k.
Proof.
  intros Hnd Hperm.
  assert (Hnd2 : NoDup cache2.*1) by (rewrite <- Hperm; exact Hnd).
  destruct (cache_get cache1 k) as [v|] eqn:E1.
  - symmetry. apply cache_get_NoDup; [exact Hnd2|].
    rewrite <- Hperm. apply cache_get_Some_elem. exact E1.
  - destruct (cache_get cache2 k) as [v|] eqn:E2; [|reflexivity].
    apply cache_get_Some_elem in E2. rewrite <- Hperm in E2.
    apply (cache_get_NoDup _ _ _ Hnd) in E2. congruence.
Qed.

Lemma trace_to_root_ext (cache1 cache2 : list (Z * CachedOopInfo)) :
  (∀ k, cache_get cache1 k = cache_get cache2 k) →
  ∀ fuel (o field : Z) p,
    trace_to_root vm cache1 fuel o field p = trace_to_root vm cache2 fuel o field p.
Proof.
  intros Hext fuel. induction fuel as [|fuel IH]; intros o field p; [reflexivity|].
  rewrite !trace_to_root_S, Hext.
  destruct (negb (_referrer p =? NULL)%Z); [|reflexivity].
  destruct (cache_get cache2 (_referrer p)) as [ref|]; [|reflexivity].
  rewrite IH. reflexivity.
Qed.

Lemma iterate_ext (cache1 cache2 : list (Z * CachedOopInfo)) (fuel : nat) :
  (∀ k, cache_get cache1 k = cache_get cache2 k) →
  ∀ entries verf,
    iterate vm cache1 fuel entries verf = iterate vm cache2 fuel entries verf.
Proof.
  intros Hext entries. induction entries as [|[o p] entries IH]; intros verf; [reflexivity|].
  simpl. unfold do_entry. rewrite (trace_to_root_ext _ _ Hext).
  destruct (_table verf !! o); [|apply IH].
  destruct (trace_to_root vm cache2 fuel o NULL p) as [[level lines]|]; [apply IH|reflexivity].
Qed.

(** A cross-check that returns, returns for every order of the entries, with
    the same counters and the same reports up to their order. *)
Lemma iterate_perm (cache : list (Z * CachedOopInfo)) (fuel : nat)
    (entries1 entries2 : list (Z * CachedOopInfo)) (verf verf1 : CDSHeapVerifier) :
  entries1 ≡ₚ entries2 →
  iterate vm cache fuel entries1 verf = Some verf1 →
  ∃ verf2,
    iterate vm cache fuel entries2 verf = Some verf2 ∧
    _archived_objs verf2 = _archived_objs verf1 ∧
    _problems verf2 = _problems verf1 ∧
    violations (warnings verf1) ≡ₚ violations (warnings verf2) ∧
    ∃ events1 events2,
      warnings verf1 = warnings verf ++ events1 ∧
      warnings verf2 = warnings verf ++ events2 ∧
      Forall (fun e => is_Summary e = false) events1 ∧
      Forall (fun e => is_Summary e = false) events2.
Proof.
  intros Hperm H1.
  destruct (iterate vm cache fuel entries2 verf) as [verf2|] eqn:H2.
  - exists verf2. split; [reflexivity|].
    pose proof (iterate_violations _ _ _ _ _ _ H1) as [_ Hv1].
    pose proof (iterate_violations _ _ _ _ _ _ H2) as [_ Hv2].
    apply iterate_counters in H1 as (Ha1 & Hp1 & ev1 & Hw1 & Hs1).
    apply iterate_counters in H2 as (Ha2 & Hp2 & ev2 & Hw2 & Hs2).
    assert (Hhits : hits (_table verf) entries1 ≡ₚ hits (_table verf) entries2).
    { unfold hits. rewrite Hperm. reflexivity. }
    split; [rewrite Ha1, Ha2, (Permutation_length Hperm); reflexivity|].
    split; [rewrite Hp1, Hp2, (Permutation_length Hhits); reflexivity|].
    split; [rewrite Hv1, Hv2, Hhits; reflexivity|].
    exists ev1, ev2. auto.
  - exfalso. apply iterate_fails_iff in H2 as (o & p & Hin & Hs & Hn).
    assert (H1' : iterate vm cache fuel entries1 verf = None).
    { apply iterate_fails_iff. exists o, p. rewrite Hperm. auto. }
    congruence.
Qed.

End CacheOrderProofs.

(** X19.  [verify] does not depend on the order in which the cache keeps its
    entries: for a cache that holds each object once, when the run over one
    order of the entries returns, the run over any other order returns too,
    reports the same violations up to their order, and logs the same
    summary, if any. *)
Theorem verify_cache_order (vm : Host) (excl : list (string * list string))
    (classes : list KlassPtr) (cache1 cache2 : list (oop * CachedOopInfo)) (fuel : nat)
    (log1 : list log_event) :
  NoDup cache1.*1 →
  cache1 ≡ₚ cache2 →
  verify vm excl classes cache1 fuel = Some log1 →
  ∃ log2,
    verify vm excl classes cache2 fuel = Some log2 ∧
    violations log1 ≡ₚ violations log2 ∧
    ∀ N M, Summary N M ∈ log1 ↔ Summary N M ∈ log2.
Proof.
  intros Hnd Hperm H1. unfold verify in *.
  destruct (iterate vm cache1 fuel cache1 (CDSHeapVerifier_new vm excl classes))
    as [verf1|] eqn:Hit1; [|discriminate].
  injection H1 as <-.
  destruct (iterate_perm vm cache1 fuel cache1 cache2 _ _ Hperm Hit1)
    as (verf2 & Hit2 & Ha & Hp & Hv & ev1 & ev2 & Hw1 & Hw2 & Hs1 & Hs2).
  rewrite (iterate_ext vm cache1 cache2 fuel (λ k, cache_get_perm _ _ k Hnd Hperm)) in Hit2.
  rewrite Hit2. eexists. split; [reflexivity|].
  simpl in Hw1, Hw2. subst ev1 ev2.
  assert (Hno : ∀ verf N M, Forall (fun e => is_Summary e = false) (warnings verf) →
                  (Summary N M ∈ CDSHeapVerifier_delete verf ↔
                   (_problems verf >? 0)%Z = true ∧
                   N = _archived_objs verf ∧ M = _problems verf)).
  { intros verf N M Hs. unfold CDSHeapVerifier_delete.
    assert (Hnot : Summary N M ∉ warnings verf).
    { intros Hx. rewrite Forall_forall in Hs. specialize (Hs _ Hx). discriminate. }
    destruct (_problems verf >? 0)%Z.
    - rewrite elem_of_app, list_elem_of_singleton. split.
      + intros [Hx|Hx]; [contradiction|]. injection Hx as -> ->. auto.
      + intros (_ & -> & ->). right. reflexivity.
    - split; [intros Hx; contradiction|]. intros (Hx & _). discriminate. }
  split.
  - unfold CDSHeapVerifier_delete.
    destruct (_problems verf1 >? 0)%Z, (_problems verf2 >? 0)%Z;
      rewrite ?violations_no_summary; exact Hv.
  - intros N M. rewrite (Hno verf1 N M Hs1), (Hno verf2 N M Hs2), Ha, Hp. reflexivity.
Qed.

Lemma verify_cache_order_witness :
  ∃ log2,
    verify ex_vm exclusion_table [ex_Foo; ex_Alias]
      [(ex_S, root_entry); (ex_O, entry_from ex_S)] 5 = Some log2 ∧
    violations
      [Problem {| _holder := ex_Foo; _name := "archivedFoo" |} ex_O
         [StringTableLine 0; HopLine 1 ex_S "java/lang/String" NoField;
          HopLine 2 ex_O "Foo" NoField];
       Problem {| _holder := ex_Alias; _name := "T" |} ex_S
         [StringTableLine 0; HopLine 1 ex_S "java/lang/String" NoField];
       Summary 2 2] ≡ₚ violations log2 ∧
    ∀ N M,
      Summary N M ∈
        [Problem {| _holder := ex_Foo; _name := "archivedFoo" |} ex_O
           [StringTableLine 0; HopLine 1 ex_S "java/lang/String" NoField;
            HopLine 2 ex_O "Foo" NoField];
         Problem {| _holder := ex_Alias; _name := "T" |} ex_S
           [StringTableLine 0; HopLine 1 ex_S "java/lang/String" NoField];
         Summary 2 2] ↔ Summary N M ∈ log2.
Proof.
  apply (verify_cache_order ex_vm exclusion_table [ex_Foo; ex_Alias]
           [(ex_O, entry_from ex_S); (ex_S, root_entry)]
           [(ex_S, root_entry); (ex_O, entry_from ex_S)] 5).
  - apply (bool_decide_unpack _). vm_compute. exact I.
  - apply perm_swap.
  - reflexivity.
Defined.
